(** * functional_analysis.py: gene functional-enrichment pipeline

    A shallow embedding of [scripts/functional_analysis.py] and the
    properties of its four stages: reading the identifier list, validating
    the identifiers against MyGene.info (direct lookup, then a retry with
    the mitochondrial prefix), querying g:Profiler, and exporting.

    The script talks to the outside world (the input file, two web
    services, the output directory, standard output).  The answers of the
    outside world are the fields of a [World]; what the script does to it
    is recorded, in order, as a list of [event]s. *)

From Stdlib Require Import Ascii String.
From stdpp Require Import base option list strings gmap pretty.

Open Scope string_scope.
Open Scope list_scope.
Open Scope nat_scope.

#[global] Set Warnings "-clear-no-such-hyp".

(** ** Python strings

    A [str] is a [string]; a character stands for the code point of its
    number, so the model covers text within the first 256 code points. *)

Module PyStr.

Definition nl : ascii := "010"%char.
Definition comma : ascii := ","%char.

(** [str.isspace] on one character, for code points below 256:
    TAB..CR, FS..US, SPACE, NEL and NBSP. *)
Definition isspace (c : ascii) : bool :=
  let n := nat_of_ascii c in
  (((9 <=? n) && (n <=? 13)) || ((28 <=? n) && (n <=? 32))
   || (n =? 133) || (n =? 160))%nat.

(** Truth value of a [str]: non-empty. *)
Definition truthy (s : string) : bool :=
  match s with EmptyString => false | String _ _ => true end.

(** [c in s] for a one-character [c]. *)
Fixpoint contains (c : ascii) (s : string) : bool :=
  match s with
  | EmptyString => false
  | String d s' => if decide (d = c) then true else contains c s'
  end.

(** [s.replace(old, new)] for one-character [old] and [new]. *)
Fixpoint replace (old new : ascii) (s : string) : string :=
  match s with
  | EmptyString => EmptyString
  | String d s' =>
      String (if decide (d = old) then new else d) (replace old new s')
  end.

(** [s.split(sep)] for a one-character [sep]: one more piece than there
    are separators, empty pieces kept. *)
Fixpoint split (sep : ascii) (s : string) : list string :=
  match s with
  | EmptyString => [EmptyString]
  | String d s' =>
      if decide (d = sep) then EmptyString :: split sep s'
      else match split sep s' with
           | p :: ps => String d p :: ps
           | [] => [String d EmptyString]
           end
  end.

Fixpoint lstrip (s : string) : string :=
  match s with
  | EmptyString => EmptyString
  | String d s' => if isspace d then lstrip s' else s
  end.

Fixpoint rstrip (s : string) : string :=
  match s with
  | EmptyString => EmptyString
  | String d s' =>
      match rstrip s' with
      | EmptyString => if isspace d then EmptyString else String d EmptyString
      | r => String d r
      end
  end.

(** [s.strip()] *)
Definition strip (s : string) : string := rstrip (lstrip s).

(** [str.lower] on one character, for code points below 256. *)
Definition lower_char (c : ascii) : ascii :=
  let n := nat_of_ascii c in
  if (((65 <=? n) && (n <=? 90))
      || ((192 <=? n) && (n <=? 222) && negb (n =? 215)))%nat
  then ascii_of_nat (n + 32)%nat else c.

Fixpoint lower (s : string) : string :=
  match s with
  | EmptyString => EmptyString
  | String d s' => String (lower_char d) (lower s')
  end.

(** [s * n] *)
Fixpoint mul (s : string) (n : nat) : string :=
  match n with
  | O => EmptyString
  | S n' => s +:+ mul s n'
  end.

(** [sep.join(l)] *)
Fixpoint join (sep : string) (l : list string) : string :=
  match l with
  | [] => EmptyString
  | [x] => x
  | x :: l' => x +:+ sep +:+ join sep l'
  end.

(** First and last character, when there is one. *)
Definition first (s : string) : option ascii :=
  match s with EmptyString => None | String d _ => Some d end.

Fixpoint last (s : string) : option ascii :=
  match s with
  | EmptyString => None
  | String d EmptyString => Some d
  | String _ s' => last s'
  end.

(** A string with no whitespace at either end. *)
Definition stripped (s : string) : Prop :=
  (∀ c, first s = Some c → isspace c = false)
  ∧ (∀ c, last s = Some c → isspace c = false).

End PyStr.

Arguments PyStr.mul : simpl never.

(** ** Python values that the script passes around *)

(** What an [argparse] attribute of this script can hold. *)
Inductive pyval :=
| PNone
| PStr (s : string)
| PList (l : list string).

(** An insertion-ordered [dict] from [str] to [V]: assigning to a key
    that is present keeps its place and replaces its value. *)
Section Dict.
Context {V : Type}.

Fixpoint dict_set (k : string) (v : V) (d : list (string * V))
  : list (string * V) :=
  match d with
  | [] => [(k, v)]
  | (k', v') :: d' =>
      if decide (k' = k) then (k, v) :: d' else (k', v') :: dict_set k v d'
  end.

Fixpoint dict_get (k : string) (d : list (string * V)) : option V :=
  match d with
  | [] => None
  | (k', v') :: d' => if decide (k' = k) then Some v' else dict_get k d'
  end.

Definition dict_keys (d : list (string * V)) : list string := d.*1.
End Dict.

(** ** Data exchanged with the services *)

(** One entry of [results['out']] as MyGene.info answers it: a dict of
    which the script reads the keys ['notfound'] (whether it is present,
    and its truth value) and ['symbol']. *)
Record hit := Hit {
  notfound : option bool;
  symbol : option string
}.

(** A cell of a dataframe.  Numbers are only carried, never computed
    with: a float is kept as the 64 bits of its representation. *)
Inductive cell :=
| CStr (s : string)
| CInt (n : Z)
| CFloat (bits : Z)
| CBool (b : bool)
| CList (l : list string).

(** A [pandas.DataFrame]: column labels (distinct, as g:Profiler and the
    script itself build them) and rows of cells. *)
Record DataFrame := {
  columns : list string;
  rows : list (list cell)
}.

(** [pd.DataFrame()] *)
Definition DataFrame_new : DataFrame := {| columns := []; rows := [] |}.

(** [df.empty]: some axis has length zero. *)
Definition df_empty (df : DataFrame) : bool :=
  match columns df, rows df with
  | _ :: _, _ :: _ => false
  | _, _ => true
  end.

(** [len(df)] *)
Definition df_len (df : DataFrame) : nat := length (rows df).

(** Position of a column label. *)
Fixpoint column_index (label : string) (cols : list string) : option nat :=
  match cols with
  | [] => None
  | c :: cols' =>
      if decide (c = label) then Some O else S <$> column_index label cols'
  end.

(** [cell == s] for a [str] [s]. *)
Definition cell_eq_str (c : option cell) (s : string) : bool :=
  match c with
  | Some (CStr s') => bool_decide (s' = s)
  | _ => false
  end.

(** [df[df[label] == value]]: the rows whose [label] cell is [value];
    [None] stands for the [KeyError] of a missing column. *)
Definition df_where (df : DataFrame) (label value : string)
  : option DataFrame :=
  i ← column_index label (columns df);
  Some {| columns := columns df;
          rows := filter (λ r, cell_eq_str (r !! i) value = true) (rows df) |}.

(** The dict that [validar_y_convertir_genes] returns. *)
Record Validacion := {
  validos : list string;
  mapping : list (string * string);
  no_encontrados : list string;
  advertencias : list string
}.

(** ** The outside world and the runs of the script *)

(** An exception of class [Exception] raised by the outside world;
    [str(e)] is [exc_msg]. *)
Record exception := Exc {
  exc_class : string;
  exc_msg : string
}.

Inductive response (A : Type) :=
| Returned (a : A)
| Raised (e : exception).
Arguments Returned {A} a.
Arguments Raised {A} e.

Record World := {
  (** [open(archivo, 'r').read()] *)
  read_file : string → response string;
  (** [mg.querymany(ids, scopes=..., fields=..., species=species,
      returnall=True)['out']] *)
  querymany : list string → string → response (list hit);
  (** [gp.profile(organism=..., query=..., sources=..., user_threshold=0.05,
      significance_threshold_method='fdr')], which may be [None] *)
  profile : string → list string → list string → response (option DataFrame)
}.

Inductive event :=
| Print (line : string)
| Usage (error : option string)
| OpenRead (archivo : string)
| QueryMany (ids : list string) (species : string)
| Profile (organism : string) (query : list string) (sources : list string)
| MakeDirs (dir : string)
| ToCsv (path : string) (df : DataFrame)
| ToExcel (path : string) (df : DataFrame).

(** How a piece of the script ends: it returns, it calls [sys.exit], or
    an exception escapes it. *)
Inductive outcome (A : Type) :=
| Return (a : A)
| SysExit (code : Z)
| Uncaught (e : exception).
Arguments Return {A} a.
Arguments SysExit {A} code.
Arguments Uncaught {A} e.

Record Run (A : Type) := MkRun {
  trace : list event;
  result : outcome A
}.
Arguments MkRun {A} trace result.
Arguments trace {A} r.
Arguments result {A} r.

#[global] Instance Run_ret : MRet Run := λ A a, MkRun [] (Return a).

#[global] Instance Run_bind : MBind Run := λ A B f m,
  match result m with
  | Return a => MkRun (trace m ++ trace (f a)) (result (f a))
  | SysExit c => MkRun (trace m) (SysExit c)
  | Uncaught e => MkRun (trace m) (Uncaught e)
  end.

Definition emit (e : event) : Run unit := MkRun [e] (Return tt).
Definition print (line : string) : Run unit := emit (Print line).
Definition sys_exit {A} (code : Z) : Run A := MkRun [] (SysExit code).
Definition raise {A} (e : exception) : Run A := MkRun [] (Uncaught e).

(** A call to the outside world: the call is recorded, its answer is
    handed to the caller, who may catch the exception. *)
Definition call {A} (e : event) (r : response A) : Run (response A) :=
  MkRun [e] (Return r).

(** A [for] loop whose body has effects. *)
Fixpoint for_each {A} (l : list A) (body : A → Run unit) : Run unit :=
  match l with
  | [] => mret tt
  | x :: l' => body x ;; for_each l' body
  end.

(** The files written during a run, in order. *)
Definition written (t : list event) : list string :=
  omap (λ e, match e with
             | ToCsv p _ | ToExcel p _ => Some p
             | _ => None
             end) t.

(** [os.path.join(a, b)] on a POSIX system. *)
Definition path_join (a b : string) : string :=
  match b with
  | String "/" _ => b
  | _ =>
      match PyStr.last a with
      | None => b
      | Some "/"%char => a +:+ b
      | Some _ => a +:+ "/" +:+ b
      end
  end.

(** ** [argparse]

    The part of [argparse] that the script uses: optional arguments that
    store one string or a non-empty list of strings, [-h], and one
    mutually exclusive group.  A command line is taken as [argparse] reads
    it: option strings in order, each with the argument strings up to the
    next option string. *)

Module Argparse.

Inductive nargs :=
| NargsNone     (** one argument, stored as a [str] *)
| NargsPlus.    (** [nargs='+']: one or more, stored as a list *)

Record Action := {
  option_strings : list string;
  dest : string;
  arity : nargs;
  default_value : pyval
}.

Record ArgumentParser := {
  (** the arguments of [add_mutually_exclusive_group] *)
  group_actions : list Action;
  group_required : bool;
  (** the arguments added to the parser itself *)
  parser_actions : list Action
}.

Abbreviation Namespace := (gmap string pyval).
Definition command_line := list (string * list string).

Inductive parsed :=
| Parsed (args : Namespace)
| Help                       (** [-h]: help printed, exit status 0 *)
| Error (message : string).  (** [parser.error]: exit status 2 *)

Definition all_actions (p : ArgumentParser) : list Action :=
  group_actions p ++ parser_actions p.

Definition has_option (flag : string) (a : Action) : bool :=
  bool_decide (flag ∈ option_strings a).

Definition find_action (p : ArgumentParser) (flag : string)
  : option Action :=
  snd <$> list_find (λ a, has_option flag a = true) (all_actions p).

Definition in_group (p : ArgumentParser) (a : Action) : bool :=
  bool_decide (dest a ∈ dest <$> group_actions p).

(** Every attribute starts at its default. *)
Definition defaults (p : ArgumentParser) : Namespace :=
  foldl (λ ns a, <[dest a := default_value a]> ns) ∅ (all_actions p).

(** The state of the scan: the namespace so far, the group members
    given so far, and whether something was left unrecognised. *)
Record scan := {
  ns : Namespace;
  seen : list string;
  extras : bool
}.

Fixpoint consume (p : ArgumentParser) (cmd : command_line) (st : scan)
  : parsed :=
  match cmd with
  | [] =>
      if group_required p && bool_decide (seen st = []) then
        Error "one of the arguments is required"
      else if extras st then Error "unrecognized arguments"
      else Parsed (ns st)
  | (flag, values) :: cmd' =>
      if bool_decide (flag ∈ ["-h"; "--help"]) then Help else
      match find_action p flag with
      | None =>
          consume p cmd' {| ns := ns st; seen := seen st; extras := true |}
      | Some a =>
          match arity a, values with
          | NargsNone, [] => Error "expected one argument"
          | NargsPlus, [] => Error "expected at least one argument"
          | _, v :: rest =>
              if in_group p a
                 && bool_decide (Exists (λ d, d ≠ dest a) (seen st)) then
                Error "not allowed with argument"
              else
                let stored :=
                  match arity a with
                  | NargsNone => PStr v
                  | NargsPlus => PList values
                  end in
                let left_over :=
                  match arity a, rest with
                  | NargsNone, _ :: _ => true
                  | _, _ => false
                  end in
                consume p cmd'
                  {| ns := <[dest a := stored]> (ns st);
                     seen := if in_group p a then dest a :: seen st
                             else seen st;
                     extras := extras st || left_over |}
          end
      end
  end.

Definition parse_args (p : ArgumentParser) (cmd : command_line) : parsed :=
  consume p cmd {| ns := defaults p; seen := []; extras := false |}.

(** Whether one of the option strings of the attribute [d] is given. *)
Definition given (p : ArgumentParser) (d : string) (cmd : command_line)
  : bool :=
  bool_decide (Exists (λ o, dest <$> find_action p o.1 = Some d) cmd).

End Argparse.

(** ** The script *)

Definition regla : string := PyStr.mul "=" 70.
Definition salto : string := String PyStr.nl EmptyString.

Section Script.
Context (w : World).

(** *** [leer_genes] *)

(** The two list comprehensions of [leer_genes]:
    [[x.strip() for x in pieces if x.strip()]]. *)
Definition limpiar (pieces : list string) : list string :=
  PyStr.strip <$> filter (λ x, PyStr.truthy (PyStr.strip x) = true) pieces.

(** The list computed from the content of the file. *)
Definition genes_de_contenido (contenido : string) : list string :=
  if PyStr.contains PyStr.comma contenido
  then limpiar (PyStr.split PyStr.comma
                  (PyStr.replace PyStr.nl PyStr.comma contenido))
  else limpiar (PyStr.split PyStr.nl contenido).

Definition leer_genes (archivo : string) : Run (list string) :=
  r ← call (OpenRead archivo) (read_file w archivo);
  match r with
  | Returned contenido =>
      if PyStr.contains PyStr.comma contenido then
        print "[INFO] Formato detectado: genes separados por comas" ;;
        let genes := genes_de_contenido contenido in
        print ("[INFO] Leídos " +:+ pretty (length genes)
               +:+ " genes desde " +:+ archivo) ;;
        mret genes
      else
        print "[INFO] Formato detectado: un gen por línea" ;;
        let genes := genes_de_contenido contenido in
        print ("[INFO] Leídos " +:+ pretty (length genes)
               +:+ " genes desde " +:+ archivo) ;;
        mret genes
  | Raised e =>
      if decide (exc_class e = "FileNotFoundError") then
        print ("[ERROR] Archivo no encontrado: " +:+ archivo) ;;
        sys_exit 1
      else
        print ("[ERROR] Error al leer archivo: " +:+ exc_msg e) ;;
        sys_exit 1
  end.

(** *** [validar_y_convertir_genes] *)

Definition species_map : list (string * string) :=
  [("human", "human"); ("mouse", "mouse"); ("rat", "rat");
   ("hsapiens", "human"); ("mmusculus", "mouse"); ("rnorvegicus", "rat")].

(** [species_map.get(organismo.lower(), 'human')] *)
Definition species_of (organismo : string) : string :=
  default "human" (dict_get (PyStr.lower organismo) species_map).

(** The lists and the dict that the two loops fill in. *)
Record acumulado := {
  genes_validos : list string;
  mapping_ : list (string * string);
  no_encontrados_ : list string;
  advertencias_ : list string;
  genes_a_reintentar : list string
}.

Definition acumulado_inicial : acumulado :=
  {| genes_validos := []; mapping_ := []; no_encontrados_ := [];
     advertencias_ := []; genes_a_reintentar := [] |}.

Definition aplazar (gene_input : string) (a : acumulado) : acumulado :=
  {| genes_validos := genes_validos a; mapping_ := mapping_ a;
     no_encontrados_ := no_encontrados_ a;
     advertencias_ := advertencias_ a;
     genes_a_reintentar := genes_a_reintentar a ++ [gene_input] |}.

Definition aceptar (gene_input simbolo : string) (a : acumulado)
  : acumulado :=
  {| genes_validos := genes_validos a ++ [simbolo];
     mapping_ := dict_set gene_input simbolo (mapping_ a);
     no_encontrados_ := no_encontrados_ a;
     advertencias_ := advertencias_ a;
     genes_a_reintentar := genes_a_reintentar a |}.

Definition descartar (gene_original : string) (a : acumulado) : acumulado :=
  {| genes_validos := genes_validos a; mapping_ := mapping_ a;
     no_encontrados_ := no_encontrados_ a ++ [gene_original];
     advertencias_ :=
       advertencias_ a
       ++ ["Gen no encontrado: '" +:+ gene_original +:+ "'"];
     genes_a_reintentar := genes_a_reintentar a |}.

(** Body of the first loop, over [zip(genes, results['out'])]. *)
Definition paso_directo (a : acumulado) (p : string * hit) : acumulado :=
  let '(gene_input, result) := p in
  match notfound result with
  | Some true => aplazar gene_input a
  | _ =>
      match symbol result with
      | Some simbolo => aceptar gene_input simbolo a
      | None => aplazar gene_input a
      end
  end.

(** [[f"MT-{gene}" for gene in genes_a_reintentar]] *)
Definition variantes_mt (l : list string) : list string :=
  (λ gene, "MT-" +:+ gene) <$> l.

(** Body of the second loop, over
    [zip(genes_a_reintentar, variantes_mt, results_mt['out'])]. *)
Definition paso_mt (a : acumulado) (p : string * string * hit)
  : acumulado :=
  let '(gene_original, gene_mt, result_mt) := p in
  match notfound result_mt, symbol result_mt with
  | None, Some simbolo => aceptar gene_original simbolo a
  | _, _ => descartar gene_original a
  end.

Definition encabezado_validacion : Run unit :=
  print (salto +:+ regla) ;;
  print "VALIDACIÓN Y CONVERSIÓN DE IDENTIFICADORES" ;;
  print regla.

(** The retry of [validar_y_convertir_genes], from
    [if genes_a_reintentar:] to the end of its [except]. *)
Definition reintentar_mt (species : string) (a : acumulado)
  : Run acumulado :=
  match genes_a_reintentar a with
  | [] => mret a
  | _ :: _ =>
      print ("[INFO] Buscando variantes mitocondriales (MT-) para "
             +:+ pretty (length (genes_a_reintentar a))
             +:+ " genes...") ;;
      let variantes := variantes_mt (genes_a_reintentar a) in
      r_mt ← call (QueryMany variantes species)
                  (querymany w variantes species);
      match r_mt with
      | Returned out_mt =>
          mret (foldl paso_mt a
                  (zip (zip (genes_a_reintentar a) variantes) out_mt))
      | Raised e =>
          mret (foldl (λ a g, descartar g a) a (genes_a_reintentar a))
      end
  end.

(** The end of [validar_y_convertir_genes], from [# Resumen] on. *)
Definition resumir (a : acumulado) : Run Validacion :=
  print ("Validación completada: "
         +:+ pretty (length (genes_validos a)) +:+ " genes válidos") ;;
  match no_encontrados_ a with
  | [] => mret tt
  | _ :: _ =>
      print ("Advertencia: " +:+ pretty (length (no_encontrados_ a))
             +:+ " genes no encontrados: "
             +:+ PyStr.join ", " (no_encontrados_ a))
  end ;;
  match genes_validos a with
  | [] =>
      print "[ERROR] No se encontró ningún gen válido. Verifica los nombres/IDs." ;;
      sys_exit 1
  | _ :: _ =>
      print (regla +:+ salto) ;;
      mret {| validos := genes_validos a;
              mapping := mapping_ a;
              no_encontrados := no_encontrados_ a;
              advertencias := advertencias_ a |}
  end.

Definition validar_y_convertir_genes (genes : list string)
    (organismo : string) : Run Validacion :=
  encabezado_validacion ;;
  print ("[INFO] Validando " +:+ pretty (length genes)
         +:+ " genes con MyGene.info...") ;;
  let species := species_of organismo in
  r ← call (QueryMany genes species) (querymany w genes species);
  match r with
  | Raised e =>
      print ("[ERROR] Error al conectar con MyGene.info: " +:+ exc_msg e) ;;
      print "[INFO] Continuando sin validación..." ;;
      mret {| validos := genes;
              mapping := foldl (λ d g, dict_set g g d) [] genes;
              no_encontrados := [];
              advertencias := ["No se pudo validar genes (sin conexión)"] |}
  | Returned out =>
      a ← reintentar_mt species
            (foldl paso_directo acumulado_inicial (zip genes out));
      resumir a
  end.

(** *** [analizar_genes] *)

Definition sources : list string := ["GO:BP"; "KEGG"; "REAC"].

Definition analizar_genes (genes : list string) (organismo : string)
  : Run DataFrame :=
  print (salto +:+ regla) ;;
  print "ANÁLISIS DE ENRIQUECIMIENTO FUNCIONAL" ;;
  print regla ;;
  print ("[INFO] Analizando " +:+ pretty (length genes)
         +:+ " genes validados") ;;
  print "[INFO] Bases de datos: GO:BP, KEGG, REAC" ;;
  r ← call (Profile organismo genes sources)
           (profile w organismo genes sources);
  resultados ←
    match r with
    | Returned (Some resultados) =>
        if negb (df_empty resultados) then
          print ("Análisis completado: " +:+ pretty (df_len resultados)
                 +:+ " términos enriquecidos encontrados") ;;
          mret resultados
        else
          print "No se encontraron términos enriquecidos significativos (p < 0.05)" ;;
          mret DataFrame_new
    | Returned None =>
        print "No se encontraron términos enriquecidos significativos (p < 0.05)" ;;
        mret DataFrame_new
    | Raised e =>
        print ("[ERROR] Error en el análisis: " +:+ exc_msg e) ;;
        mret DataFrame_new
    end;
  print (regla +:+ salto) ;;
  mret resultados.

(** *** [exportar_resultados] *)

(** The rows of [df_validacion]: one per item of the mapping, in
    insertion order, then one per identifier that was not found. *)
Definition filas_validacion (v : Validacion) : list (list cell) :=
  ((λ '(orig, val),
      [CStr orig; CStr val; CStr "valido";
       CStr (if decide (orig ≠ val) then "Convertido de " +:+ orig
             else "Validado")]) <$> mapping v)
  ++ ((λ gene,
         [CStr gene; CStr "NA"; CStr "no_encontrado";
          CStr "Gen no encontrado en MyGene.info"]) <$> no_encontrados v).

Definition df_validacion (v : Validacion) : DataFrame :=
  {| columns := ["gen_input"; "gen_validado"; "estado"; "notas"];
     rows := filas_validacion v |}.

Definition bases_datos : list (string * string) :=
  [("GO:BP", "GO_BP_resultados.csv");
   ("KEGG", "KEGG_resultados.csv");
   ("REAC", "REAC_resultados.csv")].

(** Body of the loop over [bases_datos.items()]. *)
Definition exportar_base (df : DataFrame) (output_dir : string)
    (item : string * string) : Run unit :=
  let '(source, filename) := item in
  match df_where df "source" source with
  | None => raise (Exc "KeyError" "'source'")
  | Some df_source =>
      if negb (df_empty df_source) then
        let source_file := path_join output_dir filename in
        emit (ToCsv source_file df_source) ;;
        print (source +:+ ": " +:+ filename +:+ " ("
               +:+ pretty (df_len df_source) +:+ " términos)")
      else
        print (source +:+ ": Sin resultados")
  end.

Definition exportar_resultados (df : DataFrame)
    (validacion_info : Validacion) (output_dir : string) : Run unit :=
  emit (MakeDirs output_dir) ;;
  print (salto +:+ regla) ;;
  print "EXPORTACIÓN DE RESULTADOS" ;;
  print regla ;;
  let val_file := path_join output_dir "validacion_genes.csv" in
  emit (ToCsv val_file (df_validacion validacion_info)) ;;
  print "Validación: validacion_genes.csv" ;;
  if df_empty df then
    print "No hay resultados de enriquecimiento para exportar" ;;
    print (regla +:+ salto)
  else
    let csv_file := path_join output_dir "resultados_completos.csv" in
    emit (ToCsv csv_file df) ;;
    print ("CSV completo: resultados_completos.csv ("
           +:+ pretty (df_len df) +:+ " términos)") ;;
    let excel_file := path_join output_dir "resultados_completos.xlsx" in
    emit (ToExcel excel_file df) ;;
    print "Excel completo: resultados_completos.xlsx" ;;
    for_each bases_datos (exportar_base df output_dir) ;;
    print (salto +:+ "Todos los archivos exportados a: "
           +:+ output_dir +:+ "/") ;;
    print (regla +:+ salto).

(** *** [main] *)

Import Argparse.

Definition parser : ArgumentParser :=
  {| group_actions :=
       [ {| option_strings := ["-i"; "--input"]; dest := "input";
            arity := NargsNone; default_value := PNone |};
         {| option_strings := ["-g"; "--genes"]; dest := "genes";
            arity := NargsPlus; default_value := PNone |} ];
     group_required := true;
     parser_actions :=
       [ {| option_strings := ["-o"; "--output"]; dest := "output";
            arity := NargsNone; default_value := PStr "results" |};
         {| option_strings := ["-org"; "--organism"]; dest := "organism";
            arity := NargsNone; default_value := PStr "hsapiens" |} ] |}.

(** [args.name] *)
Definition attr (args : Namespace) (name : string) : pyval :=
  default PNone (args !! name).

(** [args.output] and [args.organism] always hold a [str]. *)
Definition attr_str (args : Namespace) (name : string) : string :=
  match attr args name with
  | PStr s => s
  | _ => EmptyString
  end.

(** The [if args.input: ... else: ...] of [main]; [None] is the
    [None] that [args.genes] holds when [-g] was not given. *)
Definition genes_de_entrada (args : Namespace)
  : Run (option (list string)) :=
  match attr args "input" with
  | PStr (String c s) =>
      genes ← leer_genes (String c s); mret (Some genes)
  | _ =>
      mret (match attr args "genes" with
            | PList l => Some l
            | _ => None
            end)
  end.

Definition almohadillas : string := PyStr.mul "#" 70.

Definition main (argv : command_line) : Run unit :=
  print (salto +:+ almohadillas) ;;
  print "ANÁLISIS FUNCIONAL DE GENES" ;;
  print almohadillas ;;
  args ← match parse_args parser argv with
         | Parsed args => mret args
         | Help => emit (Usage None) ;; sys_exit 0
         | Error message => emit (Usage (Some message)) ;; sys_exit 2
         end;
  genes_input ← genes_de_entrada args;
  validacion ←
    match genes_input with
    | Some genes =>
        validar_y_convertir_genes genes (attr_str args "organism")
    | None =>
        encabezado_validacion ;;
        raise (Exc "TypeError" "object of type 'NoneType' has no len()")
    end;
  let genes_validos := validos validacion in
  resultados ← analizar_genes genes_validos (attr_str args "organism");
  exportar_resultados resultados validacion (attr_str args "output") ;;
  print (salto +:+ almohadillas) ;;
  print "ANÁLISIS COMPLETADO EXITOSAMENTE" ;;
  print (almohadillas +:+ salto).

End Script.

Arguments species_of : simpl never.
Arguments reintentar_mt : simpl never.
Arguments resumir : simpl never.
Arguments variantes_mt : simpl never.
Arguments path_join : simpl never.

(** ** Vocabulary of the properties *)

(** The three stages that follow the reading of the command line and of
    the identifiers in [main]. *)
Definition etapas (w : World) (genes : list string)
    (organism output : string) : Run unit :=
  validacion ← validar_y_convertir_genes w genes organism;
  resultados ← analizar_genes w (validos validacion) organism;
  exportar_resultados resultados validacion output ;;
  print (salto +:+ almohadillas) ;;
  print "ANÁLISIS COMPLETADO EXITOSAMENTE" ;;
  print (almohadillas +:+ salto).

(** What [main] prints before it reads the command line. *)
Definition cabecera : list event :=
  [Print (salto +:+ almohadillas); Print "ANÁLISIS FUNCIONAL DE GENES";
   Print almohadillas].

(** *** Reading the identifiers

    The list of [leer_genes] said directly: cut the content at every
    separator, strip each piece, drop the empty ones. *)

Fixpoint tokens (is_sep : ascii → bool) (s : string) : list string :=
  match s with
  | EmptyString => [EmptyString]
  | String d s' =>
      if is_sep d then EmptyString :: tokens is_sep s'
      else match tokens is_sep s' with
           | p :: ps => String d p :: ps
           | [] => [String d EmptyString]
           end
  end.

(** Commas and newlines when the content has a comma, newlines only
    otherwise. *)
Definition separador (contenido : string) (c : ascii) : bool :=
  if PyStr.contains PyStr.comma contenido
  then bool_decide (c = PyStr.comma) || bool_decide (c = PyStr.nl)
  else bool_decide (c = PyStr.nl).

Definition leer_genes_spec (contenido : string) : list string :=
  filter (λ t, t ≠ EmptyString)
         (PyStr.strip <$> tokens (separador contenido) contenido).

(** An identifier as [leer_genes] returns it: not empty, no whitespace at
    either end, no comma and no newline inside. *)
Definition limpio (g : string) : Prop :=
  g ≠ EmptyString ∧ PyStr.stripped g
  ∧ PyStr.contains PyStr.comma g = false
  ∧ PyStr.contains PyStr.nl g = false.

(** *** Resolving the identifiers

    The two lookups said with maps and filters over the answers. *)

(** The symbol that an answer of the direct lookup resolves to. *)
Definition directo (r : hit) : option string :=
  match notfound r with
  | Some true => None
  | _ => symbol r
  end.

(** The symbol that an answer of the retry resolves to. *)
Definition por_mt (r : hit) : option string :=
  match notfound r with
  | None => symbol r
  | Some _ => None
  end.

(** Each identifier that the direct lookup answers, with its symbol. *)
Definition primera (genes : list string) (out : list hit)
  : list (string * option string) :=
  (λ p, (p.1, directo p.2)) <$> zip genes out.

(** The identifiers left without a symbol, in order. *)
Definition pendientes (l : list (string * option string)) : list string :=
  (filter (λ p, p.2 = None) l).*1.

(** Each retried identifier with the symbol of the retry; none has one
    when the retry fails. *)
Definition segunda (pend : list string) (r_mt : response (list hit))
  : list (string * option string) :=
  match r_mt with
  | Returned out_mt => (λ p, (p.1, por_mt p.2)) <$> zip pend out_mt
  | Raised _ => (λ g, (g, None)) <$> pend
  end.

(** The identifiers that got a symbol, with it. *)
Definition resueltos (l : list (string * option string))
  : list (string * string) :=
  omap (λ p, s ← p.2; Some (p.1, s)) l.

Definition simbolos (l : list (string * option string)) : list string :=
  (resueltos l).*2.

(** The dict built by assigning the pairs in order. *)
Definition dict_of (l : list (string * string)) : list (string * string) :=
  foldl (λ d p, dict_set p.1 p.2 d) [] l.

(** The warning recorded for an identifier that was not found. *)
Definition aviso (g : string) : string :=
  "Gen no encontrado: '" +:+ g +:+ "'".

(** The answer of MyGene.info to the retry. *)
Definition respuesta_mt (w : World) (genes : list string) (out : list hit)
    (organismo : string) : response (list hit) :=
  querymany w (variantes_mt (pendientes (primera genes out)))
            (species_of organismo).

(** The answer has an entry for every identifier asked. *)
Definition cubre (asked : list string) (r : response (list hit)) : Prop :=
  match r with
  | Returned out => (length asked ≤ length out)%nat
  | Raised _ => True
  end.

(** *** Enrichment and export *)

(** The lookups sent to MyGene.info during a run, in order. *)
Definition consultas (t : list event) : list (list string * string) :=
  omap (λ e, match e with
             | QueryMany ids species => Some (ids, species)
             | _ => None
             end) t.

(** The enrichment queries sent to g:Profiler during a run, in order. *)
Definition analisis (t : list event)
  : list (string * list string * list string) :=
  omap (λ e, match e with
             | Profile organism query srcs => Some (organism, query, srcs)
             | _ => None
             end) t.

(** The frames written as CSV to a path during a run, in order. *)
Definition csv_en (path : string) (t : list event) : list DataFrame :=
  omap (λ e, match e with
             | ToCsv p df => if decide (p = path) then Some df else None
             | _ => None
             end) t.

(** The frame that [analizar_genes] makes of the answer of g:Profiler. *)
Definition resultados_de (r : response (option DataFrame)) : DataFrame :=
  match r with
  | Returned (Some df) => if df_empty df then DataFrame_new else df
  | _ => DataFrame_new
  end.


(** The frame has a row of this source. *)
Definition tiene_filas (df : DataFrame) (source : string) : bool :=
  match df_where df "source" source with
  | Some df_source => negb (df_empty df_source)
  | None => false
  end.

(** The files of a run that exports [df]. *)
Definition archivos (df : DataFrame) (output : string) : list string :=
  path_join output "validacion_genes.csv"
  :: (if df_empty df then []
      else path_join output "resultados_completos.csv"
           :: path_join output "resultados_completos.xlsx"
           :: ((λ item, path_join output item.2)
                 <$> filter (λ item, tiene_filas df item.1 = true)
                            bases_datos)).

(** [df[label]] as a list, one cell per row; [None] for a missing
    column. *)
Definition df_column (label : string) (df : DataFrame)
  : option (list (option cell)) :=
  i ← column_index label (columns df);
  Some ((λ r : list cell, r !! i) <$> rows df).

(** What [os.path.join] puts before a relative file name. *)
Definition prefijo (a : string) : string :=
  match PyStr.last a with
  | None => EmptyString
  | Some "/"%char => a
  | Some _ => a +:+ "/"
  end.

(** *** Worlds to run the script in *)

(** A MyGene.info that knows the symbols of a table, and answers every
    identifier asked, in order. *)
Definition responder (tabla : list (string * string)) (ids : list string)
  : list hit :=
  (λ id, match dict_get id tabla with
         | Some s => Hit None (Some s)
         | None => Hit (Some true) None
         end) <$> ids.

Definition mundo (tabla : list (string * string))
    (enriquecimiento : response (option DataFrame)) (contenido : string)
  : World :=
  {| read_file := λ _, Returned contenido;
     querymany := λ ids _, Returned (responder tabla ids);
     profile := λ _ _ _, enriquecimiento |}.

(** The same with MyGene.info out of reach. *)
Definition mundo_sin_conexion
    (enriquecimiento : response (option DataFrame)) : World :=
  {| read_file := λ _, Raised (Exc "FileNotFoundError" "genes.txt");
     querymany := λ _ _, Raised (Exc "ConnectionError" "Max retries exceeded");
     profile := λ _ _ _, enriquecimiento |}.


(** A MyGene.info that gives one fixed answer to the direct lookup of
    [genes] and another to any other lookup. *)
Definition mundo_fijo (genes : list string) (directa otra : list hit)
  : World :=
  {| read_file := λ _, Raised (Exc "FileNotFoundError" "genes.txt");
     querymany := λ ids _,
       if decide (ids = genes) then Returned directa else Returned otra;
     profile := λ _ _ _, Returned None |}.

(** A MyGene.info that answers the direct lookup of [genes] and fails on
    any other lookup. *)
Definition mundo_mt_caido (genes : list string) (directa : list hit)
  : World :=
  {| read_file := λ _, Raised (Exc "FileNotFoundError" "genes.txt");
     querymany := λ ids _,
       if decide (ids = genes) then Returned directa
       else Raised (Exc "ConnectionError" "Max retries exceeded");
     profile := λ _ _ _, Returned None |}.

Definition tabla_ejemplo : list (string * string) :=
  [("COX4I2", "COX4I2"); ("1327", "COX4I1"); ("MT-ND1", "MT-ND1");
   ("MT-ATP6", "MT-ATP6")].


(** An answer of g:Profiler with KEGG terms only. *)
Definition df_kegg : DataFrame :=
  {| columns := ["source"; "native"; "name"; "p_value"];
     rows := [[CStr "KEGG"; CStr "KEGG:00190";
               CStr "Oxidative phosphorylation";
               CFloat 4547007122018943789];
              [CStr "KEGG"; CStr "KEGG:04714"; CStr "Thermogenesis";
               CFloat 4562254508917369340]] |}.

Definition mundo_ejemplo : World :=
  mundo tabla_ejemplo (Returned (Some df_kegg))
        ("COX4I2, ND1" +:+ salto +:+ "ATP6  " +:+ salto).


(** *** Command lines *)

(** The four arguments that [main] declares. *)
Definition accion_input : Argparse.Action :=
  {| Argparse.option_strings := ["-i"; "--input"];
     Argparse.dest := "input";
     Argparse.arity := Argparse.NargsNone;
     Argparse.default_value := PNone |}.

Definition accion_genes : Argparse.Action :=
  {| Argparse.option_strings := ["-g"; "--genes"];
     Argparse.dest := "genes";
     Argparse.arity := Argparse.NargsPlus;
     Argparse.default_value := PNone |}.

Definition accion_output : Argparse.Action :=
  {| Argparse.option_strings := ["-o"; "--output"];
     Argparse.dest := "output";
     Argparse.arity := Argparse.NargsNone;
     Argparse.default_value := PStr "results" |}.

Definition accion_organism : Argparse.Action :=
  {| Argparse.option_strings := ["-org"; "--organism"];
     Argparse.dest := "organism";
     Argparse.arity := Argparse.NargsNone;
     Argparse.default_value := PStr "hsapiens" |}.

(** The group members given so far are members of the group, and not
    both of them. *)
Definition coherente (st : Argparse.scan) : Prop :=
  Forall (λ d, d = "input" ∨ d = "genes") (Argparse.seen st)
  ∧ ¬ ("input" ∈ Argparse.seen st ∧ "genes" ∈ Argparse.seen st).

(** The attribute [d] is given, before the scan reached [st] or in what
    is left of the command line. *)
Definition dado (d : string) (st : Argparse.scan)
    (cmd : Argparse.command_line) : bool :=
  bool_decide (d ∈ Argparse.seen st) || Argparse.given parser d cmd.

(** Every option string is one that the parser declares, followed by one
    argument, or by one or more for [-g]. *)
Definition bien_formada (cmd : Argparse.command_line) : Prop :=
  Forall (λ o,
    match Argparse.find_action parser o.1 with
    | Some a =>
        match Argparse.arity a, o.2 with
        | Argparse.NargsNone, [_] => True
        | Argparse.NargsPlus, _ :: _ => True
        | _, _ => False
        end
    | None => False
    end) cmd.

(** ** Runs *)

Section RunLemmas.
Context {A B : Type}.
Implicit Types (m : Run A) (f : A → Run B).

Lemma bind_return m f a :
  result m = Return a →
  m ≫= f = MkRun (trace m ++ trace (f a)) (result (f a)).
Proof. unfold mbind, Run_bind. by intros ->. Qed.

Lemma bind_exit m f c :
  result m = SysExit c → m ≫= f = MkRun (trace m) (SysExit c).
Proof. unfold mbind, Run_bind. by intros ->. Qed.

Lemma bind_uncaught m f e :
  result m = Uncaught e → m ≫= f = MkRun (trace m) (Uncaught e).
Proof. unfold mbind, Run_bind. by intros ->. Qed.

Lemma trace_bind_prefix m f : trace m `prefix_of` trace (m ≫= f).
Proof.
  unfold mbind, Run_bind. destruct (result m); simpl;
    [by apply prefix_app_r | done | done].
Qed.

Lemma trace_bind m f :
  trace (m ≫= f)
  = trace m ++ match result m with Return a => trace (f a) | _ => [] end.
Proof.
  unfold mbind, Run_bind. destruct (result m); simpl; by rewrite ?app_nil_r.
Qed.

Lemma result_bind m f :
  result (m ≫= f)
  = match result m with
    | Return a => result (f a)
    | SysExit c => SysExit c
    | Uncaught e => Uncaught e
    end.
Proof. unfold mbind, Run_bind. by destruct (result m). Qed.

Lemma ret_bind (a : A) f : mret a ≫= f = f a.
Proof. unfold mbind, Run_bind, mret, Run_ret. simpl. by destruct (f a). Qed.
End RunLemmas.

Lemma bind_assoc {A B C} (m : Run A) (f : A → Run B) (g : B → Run C) :
  (m ≫= f) ≫= g = m ≫= (λ a, f a ≫= g).
Proof.
  unfold mbind, Run_bind. destruct m as [t [a| |]]; simpl; try done.
  destruct (f a) as [t' [b| |]]; simpl; try done.
  by rewrite app_assoc.
Qed.

Lemma main_etapas w argv args tin genes :
  Argparse.parse_args parser argv = Argparse.Parsed args →
  genes_de_entrada w args = MkRun tin (Return (Some genes)) →
  main w argv =
    MkRun (cabecera ++ tin
           ++ trace (etapas w genes (attr_str args "organism")
                       (attr_str args "output")))
          (result (etapas w genes (attr_str args "organism")
                     (attr_str args "output"))).
Proof.
  intros Hp Hg. unfold main. cbn. rewrite Hp. cbn. rewrite Hg. reflexivity.
Qed.

(** ** Reading the identifiers *)

Section Reading.
Import PyStr.

Lemma split_tokens sep s :
  split sep s = tokens (λ c, bool_decide (c = sep)) s.
Proof.
  induction s as [|d s IH]; simpl; [done|].
  rewrite IH. by destruct (decide (d = sep)); [rewrite bool_decide_true
                                               |rewrite bool_decide_false].
Qed.

Lemma split_replace s :
  split comma (replace nl comma s)
  = tokens (λ c, bool_decide (c = comma) || bool_decide (c = nl)) s.
Proof.
  induction s as [|d s IH]; simpl; [done|].
  rewrite IH. destruct (decide (d = nl)) as [->|Hnl].
  - by rewrite decide_True, orb_true_r.
  - rewrite (bool_decide_false _ Hnl), orb_false_r.
    by destruct (decide (d = comma));
      [rewrite bool_decide_true|rewrite bool_decide_false].
Qed.

Lemma truthy_spec s : truthy s = true ↔ s ≠ EmptyString.
Proof. by destruct s. Qed.

Lemma limpiar_spec l :
  limpiar l = filter (λ t, t ≠ EmptyString) (strip <$> l).
Proof.
  unfold limpiar. induction l as [|x l IH]; [done|].
  rewrite fmap_cons, !filter_cons.
  destruct (decide (truthy (strip x) = true)) as [H|H].
  - rewrite decide_True by by apply truthy_spec.
    by rewrite fmap_cons, IH.
  - rewrite decide_False; [done|]. by rewrite <- truthy_spec.
Qed.

Lemma lstrip_first s c : first (lstrip s) = Some c → isspace c = false.
Proof.
  induction s as [|d s IH]; simpl; [done|].
  destruct (isspace d) eqn:E; [done|]. simpl. by intros [= <-].
Qed.

Lemma rstrip_last s c : last (rstrip s) = Some c → isspace c = false.
Proof.
  induction s as [|d s IH]; simpl; [done|].
  destruct (rstrip s) as [|e r] eqn:E.
  - destruct (isspace d) eqn:Ed; simpl; [done|]. by intros [= <-].
  - exact IH.
Qed.

Lemma rstrip_first s c : first (rstrip s) = Some c → first s = Some c.
Proof.
  destruct s as [|d s]; simpl; [done|].
  destruct (rstrip s); [by destruct (isspace d)|done].
Qed.

Lemma strip_stripped s : stripped (strip s).
Proof.
  split; intros c Hc.
  - by eapply lstrip_first, rstrip_first.
  - by eapply rstrip_last.
Qed.

Lemma genes_de_contenido_spec contenido :
  genes_de_contenido contenido = leer_genes_spec contenido.
Proof.
  unfold genes_de_contenido, leer_genes_spec, separador.
  destruct (contains comma contenido).
  - by rewrite limpiar_spec, split_replace.
  - by rewrite limpiar_spec, split_tokens.
Qed.

Lemma leer_genes_spec_limpio contenido :
  Forall (λ g, g ≠ EmptyString ∧ stripped g) (leer_genes_spec contenido).
Proof.
  apply Forall_forall. intros g Hg.
  apply list_elem_of_filter in Hg as [Hne Hg].
  apply list_elem_of_fmap in Hg as (t & -> & _).
  split; [done|apply strip_stripped].
Qed.

Lemma leer_genes_readable w archivo contenido :
  read_file w archivo = Returned contenido →
  result (leer_genes w archivo) = Return (genes_de_contenido contenido).
Proof.
  intros H. unfold leer_genes. cbn. rewrite H.
  by destruct (contains comma contenido).
Qed.
End Reading.

(** C9. For every readable input file, [leer_genes] returns the list
    obtained by cutting the content at the separators (commas and
    newlines when the content has a comma, newlines only otherwise),
    stripping each piece and dropping the empty ones; every string of the
    list is non-empty and has no whitespace at either end. *)
Theorem leer_genes_tokens w archivo contenido :
  read_file w archivo = Returned contenido →
  result (leer_genes w archivo) = Return (leer_genes_spec contenido)
  ∧ Forall (λ g, g ≠ EmptyString ∧ PyStr.stripped g)
           (leer_genes_spec contenido).
Proof.
  intros H. split.
  - by rewrite (leer_genes_readable _ _ _ H), genes_de_contenido_spec.
  - apply leer_genes_spec_limpio.
Qed.

(** ** Dicts *)

Section DictLemmas.
Context {V : Type}.
Implicit Types (d : list (string * V)).

Lemma dict_get_set k k' v d :
  dict_get k (dict_set k' v d)
  = if decide (k' = k) then Some v else dict_get k d.
Proof.
  induction d as [|[k0 v0] d IH]; simpl.
  - by destruct (decide (k' = k)).
  - destruct (decide (k0 = k')) as [->|Hne]; simpl.
    + by destruct (decide (k' = k)).
    + rewrite IH. destruct (decide (k0 = k)) as [->|]; [|done].
      by rewrite decide_False.
Qed.

Lemma dict_keys_set k k' v d :
  k ∈ dict_keys (dict_set k' v d) ↔ k = k' ∨ k ∈ dict_keys d.
Proof.
  unfold dict_keys. induction d as [|[k0 v0] d IH]; simpl.
  - rewrite list_elem_of_singleton. set_solver.
  - destruct (decide (k0 = k')) as [->|Hne]; simpl; set_solver.
Qed.

Lemma dict_get_keys k d : is_Some (dict_get k d) ↔ k ∈ dict_keys d.
Proof.
  unfold dict_keys. induction d as [|[k0 v0] d IH]; simpl.
  - split; [by intros [? ?]|by intros ?%elem_of_nil].
  - destruct (decide (k0 = k)) as [->|Hne].
    + split; [set_solver|by eexists].
    + rewrite IH. set_solver.
Qed.
End DictLemmas.



Lemma dict_of_keys l g : g ∈ dict_keys (dict_of l) ↔ g ∈ l.*1.
Proof.
  unfold dict_of. induction l as [|[k v] l IH] using rev_ind.
  - done.
  - rewrite foldl_snoc, dict_keys_set, IH, fmap_app. set_solver.
Qed.

(** ** The two lookups *)

Section Lookups.

Lemma foldl_paso_directo a l :
  let P := (λ p : string * hit, (p.1, directo p.2)) <$> l in
  foldl paso_directo a l =
    {| genes_validos := genes_validos a ++ simbolos P;
       mapping_ := foldl (λ d p, dict_set p.1 p.2 d) (mapping_ a)
                     (resueltos P);
       no_encontrados_ := no_encontrados_ a;
       advertencias_ := advertencias_ a;
       genes_a_reintentar := genes_a_reintentar a ++ pendientes P |}.
Proof.
  revert a. induction l as [|[g [nf sym]] l IH]; intros a.
  - destruct a; cbn. by rewrite !app_nil_r.
  - cbn. rewrite IH. unfold simbolos, resueltos, pendientes, directo.
    destruct nf as [[|]|], sym; cbn; by rewrite <- ?app_assoc.
Qed.

Lemma foldl_paso_mt a pend out_mt :
  let P := (λ p : string * hit, (p.1, por_mt p.2)) <$> zip pend out_mt in
  foldl paso_mt a (zip (zip pend (variantes_mt pend)) out_mt) =
    {| genes_validos := genes_validos a ++ simbolos P;
       mapping_ := foldl (λ d p, dict_set p.1 p.2 d) (mapping_ a)
                     (resueltos P);
       no_encontrados_ := no_encontrados_ a ++ pendientes P;
       advertencias_ := advertencias_ a ++ (aviso <$> pendientes P);
       genes_a_reintentar := genes_a_reintentar a |}.
Proof.
  unfold variantes_mt.
  revert a out_mt. induction pend as [|g pend IH]; intros a out_mt.
  - destruct a; cbn. by rewrite !app_nil_r.
  - destruct out_mt as [|[nf sym] out_mt].
    { destruct a; cbn. by rewrite !app_nil_r. }
    cbn. rewrite IH. unfold simbolos, resueltos, pendientes, por_mt.
    destruct nf as [[|]|], sym; cbn; by rewrite <- ?app_assoc.
Qed.

Lemma foldl_descartar a pend :
  foldl (λ a g, descartar g a) a pend =
    {| genes_validos := genes_validos a;
       mapping_ := mapping_ a;
       no_encontrados_ := no_encontrados_ a ++ pend;
       advertencias_ := advertencias_ a ++ (aviso <$> pend);
       genes_a_reintentar := genes_a_reintentar a |}.
Proof.
  revert a. induction pend as [|g pend IH]; intros a.
  - destruct a; cbn. by rewrite !app_nil_r.
  - cbn. rewrite IH. cbn. by rewrite <- !app_assoc.
Qed.

End Lookups.

Section Validar.
Context (w : World).

Lemma segunda_nil r : segunda [] r = [].
Proof. by destruct r. Qed.

Lemma segunda_raised_resueltos pend e :
  resueltos (segunda pend (Raised e)) = [].
Proof. unfold resueltos. simpl. by induction pend. Qed.

Lemma segunda_raised_pendientes pend e :
  pendientes (segunda pend (Raised e)) = pend.
Proof.
  unfold pendientes. simpl. induction pend as [|g pend IH]; [done|].
  rewrite fmap_cons, filter_cons_True by done. by rewrite fmap_cons, IH.
Qed.

(** The retry leaves the lists as [segunda] says. *)
Lemma reintentar_mt_result species a :
  let P2 := segunda (genes_a_reintentar a)
              (querymany w (variantes_mt (genes_a_reintentar a)) species) in
  result (reintentar_mt w species a) =
    Return {| genes_validos := genes_validos a ++ simbolos P2;
              mapping_ := foldl (λ d p, dict_set p.1 p.2 d) (mapping_ a)
                            (resueltos P2);
              no_encontrados_ := no_encontrados_ a ++ pendientes P2;
              advertencias_ := advertencias_ a ++ (aviso <$> pendientes P2);
              genes_a_reintentar := genes_a_reintentar a |}.
Proof.
  unfold reintentar_mt.
  destruct (genes_a_reintentar a) as [|g pend] eqn:Hpend.
  - rewrite segunda_nil. destruct a; cbn in *. by rewrite !app_nil_r, Hpend.
  - cbn -[zip_with variantes_mt].
    destruct (querymany w (variantes_mt (g :: pend)) species) as [out_mt|e].
    + cbn -[zip_with variantes_mt]. rewrite foldl_paso_mt. by rewrite Hpend.
    + cbn -[segunda foldl]. rewrite foldl_descartar.
      unfold simbolos.
      rewrite segunda_raised_resueltos, segunda_raised_pendientes.
      cbn. by rewrite app_nil_r, Hpend, <- !app_assoc.
Qed.

Lemma reintentar_mt_trace species a :
  trace (reintentar_mt w species a) =
    match genes_a_reintentar a with
    | [] => []
    | _ :: _ =>
        [Print ("[INFO] Buscando variantes mitocondriales (MT-) para "
                +:+ pretty (length (genes_a_reintentar a))
                +:+ " genes...");
         QueryMany (variantes_mt (genes_a_reintentar a)) species]
    end.
Proof.
  unfold reintentar_mt. destruct (genes_a_reintentar a) as [|g pend]; [done|].
  cbn -[zip_with variantes_mt]. by destruct (querymany w _ _).
Qed.

Lemma resumir_result a :
  result (resumir a) =
    match genes_validos a with
    | [] => SysExit 1
    | _ :: _ => Return {| validos := genes_validos a;
                          mapping := mapping_ a;
                          no_encontrados := no_encontrados_ a;
                          advertencias := advertencias_ a |}
    end.
Proof.
  unfold resumir. cbn.
  by destruct (no_encontrados_ a), (genes_validos a).
Qed.

Lemma validar_resuelve genes organismo out :
  querymany w genes (species_of organismo) = Returned out →
  let P1 := primera genes out in
  let P2 := segunda (pendientes P1) (respuesta_mt w genes out organismo) in
  result (validar_y_convertir_genes w genes organismo) =
    match (simbolos P1 ++ simbolos P2)%list with
    | [] => SysExit 1
    | _ :: _ =>
        Return {| validos := simbolos P1 ++ simbolos P2;
                  mapping := dict_of (resueltos P1 ++ resueltos P2);
                  no_encontrados := pendientes P2;
                  advertencias := aviso <$> pendientes P2 |}
    end.
Proof.
  intros H P1 P2. unfold validar_y_convertir_genes. cbn. rewrite H. cbn.
  rewrite foldl_paso_directo. cbn. fold (primera genes out). fold P1.
  erewrite bind_return by apply reintentar_mt_result.
  cbn. rewrite resumir_result. cbn. unfold dict_of. by rewrite foldl_app.
Qed.
End Validar.

(** ** What each stage does to the outside world *)

Section Traces.
Context (w : World).

Lemma resumir_trace a :
  ∃ lines, trace (resumir a) = Print <$> lines.
Proof.
  unfold resumir. cbn.
  destruct (no_encontrados_ a), (genes_validos a); cbn;
    first [by eexists [_; _] | by eexists [_; _; _]].
Qed.

Lemma prints_consultas lines : consultas (Print <$> lines) = [].
Proof. by induction lines. Qed.

Lemma prints_analisis lines : analisis (Print <$> lines) = [].
Proof. by induction lines. Qed.

Lemma prints_written lines : written (Print <$> lines) = [].
Proof. by induction lines. Qed.

Lemma prints_csv_en p lines : csv_en p (Print <$> lines) = [].
Proof. by induction lines. Qed.

(** The trace of the validation: the header, the direct lookup, then
    either the two lines of the fallback or the retry and the summary. *)
Lemma validar_trace genes organismo :
  ∃ l1 l2,
    trace (validar_y_convertir_genes w genes organismo) =
      (Print <$> l1)
      ++ QueryMany genes (species_of organismo)
      :: match querymany w genes (species_of organismo) with
         | Raised e => Print <$> l2
         | Returned out =>
             match pendientes (primera genes out) with
             | [] => Print <$> l2
             | pend =>
                 Print ("[INFO] Buscando variantes mitocondriales (MT-) para "
                        +:+ pretty (length pend) +:+ " genes...")
                 :: QueryMany (variantes_mt pend) (species_of organismo)
                 :: (Print <$> l2)
             end
         end.
Proof.
  unfold validar_y_convertir_genes. cbn.
  destruct (querymany w genes (species_of organismo)) as [out|e]; cbn.
  - rewrite foldl_paso_directo. cbn. fold (primera genes out).
    rewrite trace_bind, reintentar_mt_result, reintentar_mt_trace. cbn.
    match goal with |- context [trace (resumir ?a)] =>
      destruct (resumir_trace a) as [l2 ->] end.
    eexists [_; _; _; _], l2. cbn.
    by destruct (pendientes (primera genes out)).
  - by eexists [_; _; _; _], [_; _].
Qed.

Lemma analizar_result genes organismo :
  result (analizar_genes w genes organismo)
  = Return (resultados_de (profile w organismo genes sources)).
Proof.
  unfold analizar_genes. cbn.
  destruct (profile w organismo genes sources) as [[df|]|e]; cbn; [|done..].
  by destruct (df_empty df).
Qed.

Lemma analizar_trace genes organismo :
  ∃ l1 l2,
    trace (analizar_genes w genes organismo) =
      (Print <$> l1) ++ Profile organismo genes sources :: (Print <$> l2).
Proof.
  unfold analizar_genes. cbn.
  destruct (profile w organismo genes sources) as [[df|]|e]; cbn;
    [destruct (df_empty df); cbn|..];
    by eexists [_; _; _; _; _], [_; _].
Qed.

Lemma leer_genes_trace archivo :
  ∃ l, trace (leer_genes w archivo) = OpenRead archivo :: (Print <$> l).
Proof.
  unfold leer_genes. cbn. destruct (read_file w archivo) as [c|e]; cbn.
  - destruct (PyStr.contains PyStr.comma c); by eexists [_; _].
  - destruct (decide _); by eexists [_].
Qed.

End Traces.

(** ** Paths *)

Lemma append_assoc_str (a b c : string) : (a +:+ b) +:+ c = a +:+ (b +:+ c).
Proof.
  induction a as [|x a IH]; [done|].
  change (String x ((a +:+ b) +:+ c) = String x (a +:+ (b +:+ c))).
  by rewrite IH.
Qed.

Lemma path_join_prefijo a b :
  PyStr.first b ≠ Some "/"%char → path_join a b = prefijo a +:+ b.
Proof.
  intros Hb. unfold path_join, prefijo.
  assert (match b with
          | String "/" _ => b
          | _ => match PyStr.last a with
                 | None => b
                 | Some "/"%char => a +:+ b
                 | Some _ => a +:+ "/" +:+ b
                 end
          end
          = match PyStr.last a with
            | None => b
            | Some "/"%char => a +:+ b
            | Some _ => a +:+ "/" +:+ b
            end) as ->.
  { destruct b as [|c b]; [done|]. simpl in Hb.
    destruct c as [[] [] [] [] [] [] [] []]; try done. }
  destruct (PyStr.last a) as [c|]; [|done].
  destruct c as [[] [] [] [] [] [] [] []]; try done;
    by rewrite append_assoc_str.
Qed.

Lemma append_inj_r p b b' : p +:+ b = p +:+ b' → b = b'.
Proof. induction p as [|c p IH]; [done|]. intros [= H]. by apply IH. Qed.

Lemma path_join_inj a b b' :
  PyStr.first b ≠ Some "/"%char → PyStr.first b' ≠ Some "/"%char →
  path_join a b = path_join a b' → b = b'.
Proof.
  intros Hb Hb'. rewrite !path_join_prefijo by done. apply append_inj_r.
Qed.

(** ** The export *)

(** Settles the comparisons of the paths of two distinct file names. *)
Ltac rutas :=
  repeat case_decide;
  repeat match goal with
         | H : path_join _ _ = path_join _ _ |- _ =>
             first [by apply path_join_inj in H | clear H]
         | H : ?x ≠ ?x |- _ => by destruct H
         end;
  try done.

Section Exportacion.
Implicit Types (df : DataFrame) (v : Validacion).


Lemma exportar_written df v output :
  result (exportar_resultados df v output) = Return tt →
  written (trace (exportar_resultados df v output)) = archivos df output.
Proof.
  unfold exportar_resultados, archivos.
  destruct (df_empty df) eqn:He; [done|].
  unfold exportar_base, bases_datos, tiene_filas, df_where.
  destruct (column_index "source" (columns df)) as [i|]; [|done].
  cbn.
  repeat match goal with
         | |- context [df_empty {| columns := ?c; rows := filter ?P ?l |}] =>
             destruct (df_empty {| columns := c; rows := filter P l |})
         end; by cbn.
Qed.
Lemma exportar_analisis df v output :
  analisis (trace (exportar_resultados df v output)) = [].
Proof.
  unfold exportar_resultados.
  destruct (df_empty df) eqn:He; [done|].
  unfold exportar_base, bases_datos, df_where.
  destruct (column_index "source" (columns df)) as [i|]; [|done].
  cbn.
  repeat match goal with
         | |- context [df_empty {| columns := ?c; rows := filter ?P ?l |}] =>
             destruct (df_empty {| columns := c; rows := filter P l |})
         end; by cbn.
Qed.

(** Only the frame handed to the export reaches
    [resultados_completos.csv], and only when it is not empty. *)
Lemma exportar_csv_completo df v output :
  csv_en (path_join output "resultados_completos.csv")
         (trace (exportar_resultados df v output))
  = if df_empty df then [] else [df].
Proof.
  unfold exportar_resultados.
  destruct (df_empty df) eqn:He; [cbn; by rutas|].
  unfold exportar_base, bases_datos, df_where.
  destruct (column_index "source" (columns df)) as [i|]; cbn; [|by rutas].
  repeat match goal with
         | |- context [df_empty {| columns := ?c; rows := filter ?P ?l |}] =>
             destruct (df_empty {| columns := c; rows := filter P l |})
         end; cbn; by rutas.
Qed.
End Exportacion.

(** ** The run of [main] *)

Section Main.
Context (w : World).

(** The projections of a trace distribute over its parts. *)
Lemma consultas_app t t' : consultas (t ++ t') = consultas t ++ consultas t'.
Proof. apply omap_app. Qed.
Lemma analisis_app t t' : analisis (t ++ t') = analisis t ++ analisis t'.
Proof. apply omap_app. Qed.
Lemma written_app t t' : written (t ++ t') = written t ++ written t'.
Proof. apply omap_app. Qed.
Lemma csv_en_app p t t' : csv_en p (t ++ t') = csv_en p t ++ csv_en p t'.
Proof. apply omap_app. Qed.

Lemma validar_analisis genes organismo :
  analisis (trace (validar_y_convertir_genes w genes organismo)) = [].
Proof.
  destruct (validar_trace w genes organismo) as (l1 & l2 & ->).
  rewrite analisis_app, prints_analisis. cbn.
  destruct (querymany w genes (species_of organismo)) as [out|e];
    [destruct (pendientes (primera genes out))|]; cbn;
    by rewrite prints_analisis.
Qed.

Lemma validar_written genes organismo :
  written (trace (validar_y_convertir_genes w genes organismo)) = [].
Proof.
  destruct (validar_trace w genes organismo) as (l1 & l2 & ->).
  rewrite written_app, prints_written. cbn.
  destruct (querymany w genes (species_of organismo)) as [out|e];
    [destruct (pendientes (primera genes out))|]; cbn;
    by rewrite prints_written.
Qed.

Lemma validar_csv_en p genes organismo :
  csv_en p (trace (validar_y_convertir_genes w genes organismo)) = [].
Proof.
  destruct (validar_trace w genes organismo) as (l1 & l2 & ->).
  rewrite csv_en_app, prints_csv_en. simpl.
  destruct (querymany w genes (species_of organismo)) as [out|e];
    [destruct (pendientes (primera genes out))|]; simpl;
    by rewrite prints_csv_en.
Qed.

Lemma analizar_analisis genes organismo :
  analisis (trace (analizar_genes w genes organismo))
  = [(organismo, genes, sources)].
Proof.
  destruct (analizar_trace w genes organismo) as (l1 & l2 & ->).
  rewrite analisis_app, prints_analisis. cbn. by rewrite prints_analisis.
Qed.

Lemma analizar_written genes organismo :
  written (trace (analizar_genes w genes organismo)) = [].
Proof.
  destruct (analizar_trace w genes organismo) as (l1 & l2 & ->).
  rewrite written_app, prints_written. cbn. by rewrite prints_written.
Qed.

Lemma analizar_csv_en p genes organismo :
  csv_en p (trace (analizar_genes w genes organismo)) = [].
Proof.
  destruct (analizar_trace w genes organismo) as (l1 & l2 & ->).
  rewrite csv_en_app, prints_csv_en. simpl. by rewrite prints_csv_en.
Qed.

(** What the three stages do, given how the validation ends. *)
Lemma etapas_validada genes organism output v :
  result (validar_y_convertir_genes w genes organism) = Return v →
  let df := resultados_de (profile w organism (validos v) sources) in
  result (etapas w genes organism output)
    = result (exportar_resultados df v output)
  ∧ analisis (trace (etapas w genes organism output))
    = [(organism, validos v, sources)]
  ∧ written (trace (etapas w genes organism output))
    = written (trace (exportar_resultados df v output))
  ∧ csv_en (path_join output "resultados_completos.csv")
           (trace (etapas w genes organism output))
    = if df_empty df then [] else [df].
Proof.
  intros Hv df. unfold etapas.
  rewrite !trace_bind, !result_bind, Hv.
  rewrite !trace_bind, !result_bind, analizar_result. fold df.
  rewrite !trace_bind, !result_bind.
  rewrite !analisis_app, !written_app, !csv_en_app.
  rewrite validar_analisis, validar_written, validar_csv_en.
  rewrite analizar_analisis, analizar_written, analizar_csv_en.
  rewrite exportar_analisis, exportar_csv_completo.
  destruct (result (exportar_resultados df v output)) as [[]| |]; cbn;
    by rewrite ?app_nil_r.
Qed.

Lemma etapas_interrumpida genes organism output :
  (∀ v, result (validar_y_convertir_genes w genes organism) ≠ Return v) →
  result (etapas w genes organism output)
    = match result (validar_y_convertir_genes w genes organism) with
      | Return _ => Return tt
      | SysExit c => SysExit c
      | Uncaught e => Uncaught e
      end
  ∧ analisis (trace (etapas w genes organism output)) = []
  ∧ written (trace (etapas w genes organism output)) = [].
Proof.
  intros Hv. unfold etapas. rewrite !trace_bind, !result_bind.
  rewrite analisis_app, written_app, validar_analisis, validar_written.
  destruct (result (validar_y_convertir_genes w genes organism)) as [v| |];
    [by destruct (Hv v)|done..].
Qed.

Lemma genes_de_entrada_trace args :
  trace (genes_de_entrada w args) = []
  ∨ ∃ archivo l,
      trace (genes_de_entrada w args) = OpenRead archivo :: (Print <$> l).
Proof.
  unfold genes_de_entrada.
  destruct (attr args "input") as [|[|c s]|l]; try by left.
  right. rewrite trace_bind.
  destruct (leer_genes_trace w (String c s)) as [l ->].
  destruct (result (leer_genes w (String c s))); cbn;
    rewrite ?app_nil_r; by eexists _, _.
Qed.

Lemma genes_de_entrada_silencioso args :
  analisis (trace (genes_de_entrada w args)) = []
  ∧ written (trace (genes_de_entrada w args)) = []
  ∧ ∀ p, csv_en p (trace (genes_de_entrada w args)) = [].
Proof.
  destruct (genes_de_entrada_trace args) as [->|(a & l & ->)]; [done|].
  split_and!; [| |intros p]; simpl;
    by rewrite ?prints_analisis, ?prints_written, ?prints_csv_en.
Qed.

(** The run of [main] on a command line that parses and yields a list
    of identifiers: the header, the reading, then the three stages. *)
Lemma main_proyecciones argv args tin genes :
  Argparse.parse_args parser argv = Argparse.Parsed args →
  genes_de_entrada w args = MkRun tin (Return (Some genes)) →
  let e := etapas w genes (attr_str args "organism")
             (attr_str args "output") in
  result (main w argv) = result e
  ∧ analisis (trace (main w argv)) = analisis (trace e)
  ∧ written (trace (main w argv)) = written (trace e)
  ∧ ∀ p, csv_en p (trace (main w argv)) = csv_en p (trace e).
Proof.
  intros Hp Hg e. rewrite (main_etapas _ _ _ _ _ Hp Hg). fold e.
  cbn [trace result].
  destruct (genes_de_entrada_silencioso args) as (Ha & Hw & Hc).
  rewrite Hg in Ha, Hw, Hc. cbn [trace] in Ha, Hw, Hc.
  rewrite !analisis_app, !written_app, Ha, Hw.
  split_and!; try done.
  intros p. by rewrite !csv_en_app, Hc.
Qed.
End Main.

(** ** MyGene.info out of reach *)

Section SinConexion.
Context (w : World).

(** [{g: g for g in genes}] *)
Lemma identidad_get genes g :
  dict_get g (foldl (λ d g, dict_set g g d) [] genes)
  = if decide (g ∈ genes) then Some g else None.
Proof.
  induction genes as [|x genes IH] using rev_ind; [done|].
  rewrite foldl_snoc, dict_get_set, IH.
  destruct (decide (x = g)) as [->|Hne].
  - rewrite decide_True; [done|set_solver].
  - destruct (decide (g ∈ genes)).
    + rewrite decide_True; [done|set_solver].
    + rewrite decide_False; [done|set_solver].
Qed.

Lemma validar_sin_conexion genes organismo e :
  querymany w genes (species_of organismo) = Raised e →
  validar_y_convertir_genes w genes organismo =
    MkRun
      [Print (salto +:+ regla);
       Print "VALIDACIÓN Y CONVERSIÓN DE IDENTIFICADORES";
       Print regla;
       Print ("[INFO] Validando " +:+ pretty (length genes)
              +:+ " genes con MyGene.info...");
       QueryMany genes (species_of organismo);
       Print ("[ERROR] Error al conectar con MyGene.info: " +:+ exc_msg e);
       Print "[INFO] Continuando sin validación..."]
      (Return {| validos := genes;
                 mapping := foldl (λ d g, dict_set g g d) [] genes;
                 no_encontrados := [];
                 advertencias :=
                   ["No se pudo validar genes (sin conexión)"] |}).
Proof.
  intros H. unfold validar_y_convertir_genes. cbn. by rewrite H.
Qed.

Lemma exportar_sin_exit df v output c :
  result (exportar_resultados df v output) ≠ SysExit c.
Proof.
  unfold exportar_resultados.
  destruct (df_empty df) eqn:He; [done|].
  unfold exportar_base, bases_datos, df_where.
  destruct (column_index "source" (columns df)) as [i|]; [|done].
  cbn.
  repeat match goal with
         | |- context [df_empty {| columns := ?c; rows := filter ?P ?l |}] =>
             destruct (df_empty {| columns := c; rows := filter P l |})
         end; by cbn.
Qed.

Lemma main_lee_validacion argv args tin genes :
  Argparse.parse_args parser argv = Argparse.Parsed args →
  genes_de_entrada w args = MkRun tin (Return (Some genes)) →
  ∀ ev, ev ∈ trace (validar_y_convertir_genes w genes
                      (attr_str args "organism")) →
        ev ∈ trace (main w argv).
Proof.
  intros Hp Hg ev Hev. rewrite (main_etapas _ _ _ _ _ Hp Hg).
  cbn [trace]. rewrite !elem_of_app. right. right.
  unfold etapas. eapply elem_of_prefix; [done|apply trace_bind_prefix].
Qed.
End SinConexion.

(** C8. If the first MyGene.info query raises, [validar_y_convertir_genes]
    returns at once (no retry is sent) with [validos] the input list,
    [mapping] taking each input identifier to itself, [no_encontrados]
    empty and one warning; [main] does not exit: it sends the input
    identifiers, unvalidated, to the enrichment query. *)
Theorem sin_conexion_continua w genes organismo e :
  querymany w genes (species_of organismo) = Raised e →
  (∃ v,
     result (validar_y_convertir_genes w genes organismo) = Return v
     ∧ validos v = genes
     ∧ (∀ g, g ∈ genes → dict_get g (mapping v) = Some g)
     ∧ (∀ g, g ∈ dict_keys (mapping v) → g ∈ genes)
     ∧ no_encontrados v = []
     ∧ advertencias v = ["No se pudo validar genes (sin conexión)"])
  ∧ consultas (trace (validar_y_convertir_genes w genes organismo))
    = [(genes, species_of organismo)]
  ∧ ∀ argv args tin,
      Argparse.parse_args parser argv = Argparse.Parsed args →
      attr_str args "organism" = organismo →
      genes_de_entrada w args = MkRun tin (Return (Some genes)) →
      analisis (trace (main w argv)) = [(organismo, genes, sources)]
      ∧ ∀ c, result (main w argv) ≠ SysExit c.
Proof.
  intros H. pose proof (validar_sin_conexion w genes organismo e H) as Hv.
  split_and!.
  - eexists. rewrite Hv.
    cbn [result validos mapping no_encontrados advertencias].
    split_and!; try done.
    + intros g Hg. cbn [mapping]. by rewrite identidad_get, decide_True.
    + intros g Hg%dict_get_keys. cbn [mapping] in Hg.
      rewrite identidad_get in Hg.
      destruct (decide (g ∈ genes)); [done|by destruct Hg].
  - by rewrite Hv.
  - intros argv args tin Hp <- Hg.
    destruct (main_proyecciones w argv args tin genes Hp Hg)
      as (Hr & Ha & _).
    assert (result (validar_y_convertir_genes w genes
                      (attr_str args "organism")) = Return
              {| validos := genes;
                 mapping := foldl (λ d g, dict_set g g d) [] genes;
                 no_encontrados := [];
                 advertencias :=
                   ["No se pudo validar genes (sin conexión)"] |}) as Hres
      by by rewrite Hv.
    destruct (etapas_validada w genes _ (attr_str args "output") _ Hres)
      as (Hr' & Ha' & _).
    split.
    + by rewrite Ha, Ha'.
    + intros c. rewrite Hr, Hr'. apply exportar_sin_exit.
Qed.

Lemma sin_conexion_continua_witness :
  let w := mundo_sin_conexion (Returned (Some df_kegg)) in
  querymany w ["TP53"; "ND1"] (species_of "hsapiens")
  = Raised (Exc "ConnectionError" "Max retries exceeded")
  ∧ analisis (trace (main w [("-g", ["TP53"; "ND1"])]))
    = [("hsapiens", ["TP53"; "ND1"], sources)].
Proof.
  split; [reflexivity|].
  apply (sin_conexion_continua
           (mundo_sin_conexion (Returned (Some df_kegg)))
           ["TP53"; "ND1"] "hsapiens"
           (Exc "ConnectionError" "Max retries exceeded") eq_refl)
    with (args := <["genes" := PList ["TP53"; "ND1"]]>
                    (Argparse.defaults parser)) (tin := []);
    reflexivity.
Defined.

(** C2 (as the script behaves). If the first MyGene.info query fails,
    the process reports it ([[ERROR] Error al conectar con MyGene.info]
    with the message of the exception, then [[INFO] Continuando sin
    validación...]) and goes on: it never calls [sys.exit], and it sends
    the input identifiers to the enrichment query. *)
Theorem sin_conexion_informa w argv args tin genes e :
  Argparse.parse_args parser argv = Argparse.Parsed args →
  genes_de_entrada w args = MkRun tin (Return (Some genes)) →
  querymany w genes (species_of (attr_str args "organism")) = Raised e →
  Print ("[ERROR] Error al conectar con MyGene.info: " +:+ exc_msg e)
    ∈ trace (main w argv)
  ∧ Print "[INFO] Continuando sin validación..." ∈ trace (main w argv)
  ∧ analisis (trace (main w argv))
    = [(attr_str args "organism", genes, sources)]
  ∧ ∀ c, result (main w argv) ≠ SysExit c.
Proof.
  intros Hp Hg He.
  pose proof (validar_sin_conexion w genes _ e He) as Hv.
  split_and!.
  - apply (main_lee_validacion w argv args tin genes Hp Hg).
    rewrite Hv. cbn [trace]. set_solver.
  - apply (main_lee_validacion w argv args tin genes Hp Hg).
    rewrite Hv. cbn [trace]. set_solver.
  - assert (result (validar_y_convertir_genes w genes
                      (attr_str args "organism")) = Return
              {| validos := genes;
                 mapping := foldl (λ d g, dict_set g g d) [] genes;
                 no_encontrados := [];
                 advertencias :=
                   ["No se pudo validar genes (sin conexión)"] |}) as Hres
      by by rewrite Hv.
    destruct (main_proyecciones w argv args tin genes Hp Hg) as (_ & -> & _).
    by destruct (etapas_validada w genes _ (attr_str args "output") _ Hres)
      as (_ & -> & _).
  - intros c.
    assert (result (validar_y_convertir_genes w genes
                      (attr_str args "organism")) = Return
              {| validos := genes;
                 mapping := foldl (λ d g, dict_set g g d) [] genes;
                 no_encontrados := [];
                 advertencias :=
                   ["No se pudo validar genes (sin conexión)"] |}) as Hres
      by by rewrite Hv.
    destruct (main_proyecciones w argv args tin genes Hp Hg) as (-> & _).
    destruct (etapas_validada w genes _ (attr_str args "output") _ Hres)
      as (-> & _).
    apply exportar_sin_exit.
Qed.

Lemma sin_conexion_informa_witness :
  let w := mundo_sin_conexion (Returned (Some df_kegg)) in
  Argparse.parse_args parser [("-g", ["TP53"])]
  = Argparse.Parsed (<["genes" := PList ["TP53"]]> (Argparse.defaults parser))
  ∧ Print "[ERROR] Error al conectar con MyGene.info: Max retries exceeded"
    ∈ trace (main w [("-g", ["TP53"])]).
Proof.
  split; [reflexivity|].
  apply (sin_conexion_informa
           (mundo_sin_conexion (Returned (Some df_kegg)))
           [("-g", ["TP53"])]
           (<["genes" := PList ["TP53"]]> (Argparse.defaults parser))
           [] ["TP53"]
           (Exc "ConnectionError" "Max retries exceeded"));
    reflexivity.
Defined.

(** The process of C2 does not terminate when MyGene.info is out of
    reach: the run goes through the three stages and ends normally. *)
Lemma sin_conexion_no_termina :
  let w := mundo_sin_conexion (Returned (Some df_kegg)) in
  querymany w ["TP53"] "human"
  = Raised (Exc "ConnectionError" "Max retries exceeded")
  ∧ result (main w [("-g", ["TP53"])]) = Return tt
  ∧ written (trace (main w [("-g", ["TP53"])]))
    = ["results/validacion_genes.csv"; "results/resultados_completos.csv";
       "results/resultados_completos.xlsx"; "results/KEGG_resultados.csv"].
Proof. by vm_compute. Qed.

(** ** The output files *)

Lemma etapas_exitosa w genes organism output :
  result (etapas w genes organism output) = Return tt →
  ∃ v, result (validar_y_convertir_genes w genes organism) = Return v.
Proof.
  intros H.
  destruct (result (validar_y_convertir_genes w genes organism))
    as [v|c|e] eqn:Hv; [by eexists|..];
    unfold etapas in H; rewrite result_bind, Hv in H; done.
Qed.

(** C5 (as the script behaves). Every successful run writes
    [validacion_genes.csv]; when the enrichment has terms it also writes
    [resultados_completos.csv] and [resultados_completos.xlsx], and, of
    [GO_BP_resultados.csv], [KEGG_resultados.csv] and
    [REAC_resultados.csv], those whose source has at least one term; it
    writes nothing else. *)
Theorem archivos_de_una_ejecucion w argv args tin genes :
  Argparse.parse_args parser argv = Argparse.Parsed args →
  genes_de_entrada w args = MkRun tin (Return (Some genes)) →
  result (main w argv) = Return tt →
  ∃ v,
    result (validar_y_convertir_genes w genes (attr_str args "organism"))
    = Return v
    ∧ written (trace (main w argv))
      = archivos (resultados_de (profile w (attr_str args "organism")
                                   (validos v) sources))
                 (attr_str args "output").
Proof.
  intros Hp Hg Hr.
  destruct (main_proyecciones w argv args tin genes Hp Hg)
    as (Hres & _ & Hw & _).
  rewrite Hres in Hr. destruct (etapas_exitosa _ _ _ _ Hr) as [v Hv].
  exists v. split; [done|].
  destruct (etapas_validada w genes _ (attr_str args "output") _ Hv)
    as (Hr' & _ & Hw' & _).
  rewrite Hw, Hw'. apply exportar_written. by rewrite <- Hr'.
Qed.

Lemma archivos_de_una_ejecucion_witness :
  result (main mundo_ejemplo [("-i", ["genes.txt"]); ("-o", ["salida"])])
  = Return tt
  ∧ written (trace (main mundo_ejemplo
                      [("-i", ["genes.txt"]); ("-o", ["salida"])]))
    = ["salida/validacion_genes.csv"; "salida/resultados_completos.csv";
       "salida/resultados_completos.xlsx"; "salida/KEGG_resultados.csv"].
Proof.
  split; [reflexivity|].
  destruct (archivos_de_una_ejecucion mundo_ejemplo
              [("-i", ["genes.txt"]); ("-o", ["salida"])]
              (<["output" := PStr "salida"]>
                 (<["input" := PStr "genes.txt"]>
                    (Argparse.defaults parser)))
              (trace (leer_genes mundo_ejemplo "genes.txt"))
              ["COX4I2"; "ND1"; "ATP6"]
              eq_refl eq_refl eq_refl) as (v & Hv & ->).
  vm_compute in Hv. injection Hv as <-. reflexivity.
Defined.

(** A successful run of C5 whose enrichment has KEGG terms only: neither
    [GO_BP_resultados.csv] nor [REAC_resultados.csv] is written. *)
Lemma ejecucion_sin_go_ni_reactome :
  result (main mundo_ejemplo [("-g", ["COX4I2"; "ND1"])]) = Return tt
  ∧ written (trace (main mundo_ejemplo [("-g", ["COX4I2"; "ND1"])]))
    = ["results/validacion_genes.csv"; "results/resultados_completos.csv";
       "results/resultados_completos.xlsx"; "results/KEGG_resultados.csv"]
  ∧ ("results/GO_BP_resultados.csv"
     ∉ written (trace (main mundo_ejemplo [("-g", ["COX4I2"; "ND1"])])))
  ∧ ("results/REAC_resultados.csv"
     ∉ written (trace (main mundo_ejemplo [("-g", ["COX4I2"; "ND1"])]))).
Proof.
  assert (written (trace (main mundo_ejemplo [("-g", ["COX4I2"; "ND1"])]))
          = ["results/validacion_genes.csv";
             "results/resultados_completos.csv";
             "results/resultados_completos.xlsx";
             "results/KEGG_resultados.csv"]) as Hw by by vm_compute.
  rewrite Hw. split_and!; [by vm_compute|done|..].
  all: rewrite !elem_of_cons, elem_of_nil.
  all: intros H; repeat (destruct H as [H|H]; [done|]); done.
Qed.

(** C6. What is written to [resultados_completos.csv] is the frame that
    g:Profiler returned, as it is: the file is written once with that very
    frame when the service returns a non-empty one, and not at all
    otherwise. *)
Theorem resultados_sin_modificar w argv args tin genes v :
  Argparse.parse_args parser argv = Argparse.Parsed args →
  genes_de_entrada w args = MkRun tin (Return (Some genes)) →
  result (validar_y_convertir_genes w genes (attr_str args "organism"))
  = Return v →
  csv_en (path_join (attr_str args "output") "resultados_completos.csv")
         (trace (main w argv))
  = match profile w (attr_str args "organism") (validos v) sources with
    | Returned (Some df) => if df_empty df then [] else [df]
    | _ => []
    end.
Proof.
  intros Hp Hg Hv.
  destruct (main_proyecciones w argv args tin genes Hp Hg) as (_ & _ & _ & ->).
  destruct (etapas_validada w genes _ (attr_str args "output") _ Hv)
    as (_ & _ & _ & ->).
  destruct (profile w _ _ _) as [[df|]|e]; cbn; try done.
  by destruct (df_empty df) eqn:He; [|rewrite He].
Qed.

Lemma resultados_sin_modificar_witness :
  csv_en "results/resultados_completos.csv"
         (trace (main mundo_ejemplo [("-g", ["COX4I2"; "ND1"])]))
  = [df_kegg].
Proof.
  exact (resultados_sin_modificar mundo_ejemplo
           [("-g", ["COX4I2"; "ND1"])]
           (<["genes" := PList ["COX4I2"; "ND1"]]> (Argparse.defaults parser))
           [] ["COX4I2"; "ND1"]
           {| validos := ["COX4I2"; "MT-ND1"];
              mapping := [("COX4I2", "COX4I2"); ("ND1", "MT-ND1")];
              no_encontrados := []; advertencias := [] |}
           eq_refl eq_refl eq_refl).
Defined.



(** ** The partition of the identifiers *)

Section Particion.
Implicit Types (l : list (string * option string)) (g s : string).

Lemma zip_cubre {A} g (genes : list string) (out : list A) :
  g ∈ genes → length genes ≤ length out → ∃ r, (g, r) ∈ zip genes out.
Proof.
  revert out. induction genes as [|x genes IH]; intros out Hg Hlen.
  - by apply elem_of_nil in Hg.
  - destruct out as [|r out]; simpl in Hlen; [lia|].
    apply elem_of_cons in Hg as [->|Hg].
    + exists r. simpl. left.
    + destruct (IH out Hg) as [r' Hr']; [lia|].
      exists r'. simpl. by right.
Qed.

Lemma en_resueltos l g s : (g, s) ∈ resueltos l ↔ (g, Some s) ∈ l.
Proof.
  unfold resueltos. rewrite list_elem_of_omap. split.
  - intros ([g' [s'|]] & Hin & Heq); simpl in Heq; [|done].
    by injection Heq as -> ->.
  - intros Hin. by exists (g, Some s).
Qed.

Lemma en_pendientes l g : g ∈ pendientes l ↔ (g, None) ∈ l.
Proof.
  unfold pendientes. rewrite list_elem_of_fmap. split.
  - intros ([g' o] & -> & Hin). apply list_elem_of_filter in Hin as [Ho Hin].
    simpl in *. by subst o.
  - intros Hin. exists (g, None). split; [done|].
    by apply list_elem_of_filter.
Qed.



Lemma segunda_fst pend r : cubre pend r → (segunda pend r).*1 = pend.
Proof.
  destruct r as [out_mt|e]; simpl; intros Hc.
  - rewrite <- list_fmap_compose.
    transitivity ((zip pend out_mt).*1);
      [apply list_fmap_ext; by intros ? [? ?]|by apply fst_zip].
  - rewrite <- list_fmap_compose. apply list_fmap_id.
Qed.



End Particion.

Section ParticionValidar.
Context (w : World) (genes : list string) (organismo : string)
        (out : list hit).
Hypothesis Hout : querymany w genes (species_of organismo) = Returned out.

Let P1 := primera genes out.
Let P2 := segunda (pendientes P1) (respuesta_mt w genes out organismo).



(** Every identifier answered by the direct lookup has a symbol from
    one of the lookups or is left without one by the retry. *)
Lemma cada_identificador g :
  length genes ≤ length out →
  cubre (pendientes P1) (respuesta_mt w genes out organismo) →
  g ∈ genes →
  (∃ s, (g, Some s) ∈ P1 ∨ (g, Some s) ∈ P2) ∨ (g, None) ∈ P2.
Proof.
  intros Hlen Hc Hg.
  destruct (zip_cubre g genes out Hg Hlen) as [r Hr].
  assert ((g, directo r) ∈ P1) as H1.
  { apply list_elem_of_fmap. by exists (g, r). }
  destruct (directo r) as [s|]; [left; exists s; by left|].
  apply en_pendientes in H1.
  rewrite <- (segunda_fst _ _ Hc) in H1. fold P2 in H1.
  apply list_elem_of_fmap in H1 as ([g' [s|]] & -> & H2); simpl.
  - left. exists s. by right.
  - by right.
Qed.

End ParticionValidar.




(** An answer shorter than the list of identifiers leaves the last
    identifier out of both the mapping and [no_encontrados]. *)
Example respuesta_corta :
  result (validar_y_convertir_genes
            (mundo_fijo ["A"; "B"] [Hit None (Some "A")] [])
            ["A"; "B"] "hsapiens")
  = Return {| validos := ["A"]; mapping := [("A", "A")];
              no_encontrados := []; advertencias := [] |}.
Proof. by vm_compute. Qed.

(** An identifier listed twice, with a symbol in one answer and none in
    the other, is both a key of the mapping and in [no_encontrados]. *)
Example identificador_repetido :
  result (validar_y_convertir_genes
            (mundo_fijo ["A"; "A"]
               [Hit None (Some "A1"); Hit (Some true) None]
               [Hit (Some true) None])
            ["A"; "A"] "hsapiens")
  = Return {| validos := ["A1"]; mapping := [("A", "A1")];
              no_encontrados := ["A"];
              advertencias := ["Gen no encontrado: 'A'"] |}.
Proof. by vm_compute. Qed.

Lemma leer_genes_tokens_witness :
  read_file mundo_ejemplo "genes.txt"
  = Returned ("COX4I2, ND1" +:+ salto +:+ "ATP6  " +:+ salto)
  ∧ result (leer_genes mundo_ejemplo "genes.txt")
    = Return ["COX4I2"; "ND1"; "ATP6"].
Proof.
  split; [reflexivity|].
  exact (proj1 (leer_genes_tokens mundo_ejemplo "genes.txt"
                  ("COX4I2, ND1" +:+ salto +:+ "ATP6  " +:+ salto)
                  eq_refl)).
Defined.

(** ** The retry with the mitochondrial prefix *)

Section Reintento.





Lemma zip_fst_sublist {A B} (l : list A) (k : list B) :
  (zip l k).*1 `sublist_of` l.
Proof.
  revert k. induction l as [|x l IH]; intros [|y k]; simpl;
    try apply sublist_nil_l.
  by apply sublist_skip.
Qed.




End Reintento.





(** ** Identifiers without a symbol *)

Lemma exportar_escribe_validacion df v output :
  ∃ rest,
    written (trace (exportar_resultados df v output))
    = path_join output "validacion_genes.csv" :: rest.
Proof.
  unfold exportar_resultados. destruct (df_empty df); cbn; by eexists.
Qed.

(** C3 (as the script behaves). When the direct lookup completes and
    MyGene.info answers every identifier it is asked (the retry may fail
    as a whole), every input identifier that gets a symbol from neither
    lookup is recorded in [no_encontrados], and the gene set sent to the
    enrichment query is made of the symbols that the lookups returned,
    nothing else.  If at least one identifier gets a symbol, the run goes
    on to the enrichment query and to the export; if none does, it exits
    with status 1 before both. *)
Theorem no_resueltos_y_continuacion w argv args tin genes out :
  Argparse.parse_args parser argv = Argparse.Parsed args →
  genes_de_entrada w args = MkRun tin (Return (Some genes)) →
  querymany w genes (species_of (attr_str args "organism")) = Returned out →
  length genes ≤ length out →
  cubre (pendientes (primera genes out))
        (respuesta_mt w genes out (attr_str args "organism")) →
  let P1 := primera genes out in
  let P2 := segunda (pendientes P1)
              (respuesta_mt w genes out (attr_str args "organism")) in
  (∀ g, g ∈ genes →
     ¬ (∃ s, (g, Some s) ∈ P1 ∨ (g, Some s) ∈ P2) → g ∈ pendientes P2)
  ∧ (simbolos P1 ++ simbolos P2 ≠ [] →
     ∃ v,
       result (validar_y_convertir_genes w genes (attr_str args "organism"))
       = Return v
       ∧ no_encontrados v = pendientes P2
       ∧ validos v = simbolos P1 ++ simbolos P2
       ∧ analisis (trace (main w argv))
         = [(attr_str args "organism", simbolos P1 ++ simbolos P2, sources)]
       ∧ ∃ rest,
           written (trace (main w argv))
           = path_join (attr_str args "output") "validacion_genes.csv"
             :: rest)
  ∧ (simbolos P1 ++ simbolos P2 = [] →
     result (main w argv) = SysExit 1
     ∧ analisis (trace (main w argv)) = []
     ∧ written (trace (main w argv)) = []).
Proof.
  intros Hp Hg Hout Hlen Hc P1 P2.
  pose proof (validar_resuelve w genes _ out Hout) as Hres.
  cbv zeta in Hres. fold P1 P2 in Hres.
  destruct (main_proyecciones w argv args tin genes Hp Hg)
    as (Hr & Ha & Hw & _).
  split_and!.
  - intros g Hin Hno.
    destruct (cada_identificador w genes _ out g Hlen Hc Hin) as [Hs|Hn];
      [done|by apply en_pendientes].
  - intros Hne.
    destruct (simbolos P1 ++ simbolos P2) as [|s0 ss] eqn:E; [done|].
    eexists. split; [exact Hres|]. cbn [no_encontrados validos].
    destruct (etapas_validada w genes _ (attr_str args "output") _ Hres)
      as (_ & Ha' & Hw' & _).
    cbn [validos] in Ha'. split_and!; try done.
    + by rewrite Ha, Ha'.
    + rewrite Hw, Hw'. apply exportar_escribe_validacion.
  - intros E. rewrite E in Hres.
    destruct (etapas_interrumpida w genes (attr_str args "organism")
                (attr_str args "output")) as (Hr' & Ha' & Hw').
    { intros v. by rewrite Hres. }
    rewrite Hres in Hr'. by rewrite Hr, Ha, Hw.
Qed.

Lemma no_resueltos_y_continuacion_witness :
  let argv := [("-g", ["COX4I2"; "ND1"; "XYZ"])] in
  length ["COX4I2"; "ND1"; "XYZ"]
  ≤ length (responder tabla_ejemplo ["COX4I2"; "ND1"; "XYZ"])
  ∧ ∃ v,
      result (validar_y_convertir_genes mundo_ejemplo
                ["COX4I2"; "ND1"; "XYZ"] "hsapiens") = Return v
      ∧ no_encontrados v = ["XYZ"]
      ∧ analisis (trace (main mundo_ejemplo argv))
        = [("hsapiens", ["COX4I2"; "MT-ND1"], sources)].
Proof.
  split; [vm_compute; lia|].
  destruct (no_resueltos_y_continuacion mundo_ejemplo
              [("-g", ["COX4I2"; "ND1"; "XYZ"])]
              (<["genes" := PList ["COX4I2"; "ND1"; "XYZ"]]>
                 (Argparse.defaults parser))
              [] ["COX4I2"; "ND1"; "XYZ"]
              (responder tabla_ejemplo ["COX4I2"; "ND1"; "XYZ"])
              eq_refl eq_refl eq_refl) as (_ & Hv & _).
  - vm_compute. lia.
  - vm_compute. lia.
  - destruct Hv as (v & Hres & Hn & _ & Ha & _); [by vm_compute|].
    exists v. split_and!; [exact Hres|exact Hn|exact Ha].
Defined.

(** MyGene.info is out of reach: the identifier of C3 gets a symbol from
    no lookup, yet it is not recorded in [no_encontrados], it is sent to
    the enrichment query, and the run goes on to the end. *)
Lemma sin_conexion_sin_resolver :
  let w := mundo_sin_conexion (Returned None) in
  querymany w ["XYZ"] (species_of "hsapiens")
  = Raised (Exc "ConnectionError" "Max retries exceeded")
  ∧ result (validar_y_convertir_genes w ["XYZ"] "hsapiens")
    = Return {| validos := ["XYZ"]; mapping := [("XYZ", "XYZ")];
                no_encontrados := [];
                advertencias :=
                  ["No se pudo validar genes (sin conexión)"] |}
  ∧ analisis (trace (main w [("-g", ["XYZ"])]))
    = [("hsapiens", ["XYZ"], sources)]
  ∧ result (main w [("-g", ["XYZ"])]) = Return tt.
Proof. by vm_compute. Qed.

(** ** The command line *)

Section CommandLine.
Import Argparse.

Lemma parser_all_actions :
  all_actions parser
  = [accion_input; accion_genes; accion_output; accion_organism].
Proof. reflexivity. Qed.

Lemma consume_nil p st :
  consume p [] st
  = if group_required p && bool_decide (seen st = []) then
      Error "one of the arguments is required"
    else if extras st then Error "unrecognized arguments"
    else Parsed (ns st).
Proof. reflexivity. Qed.

Lemma consume_cons p flag values cmd st :
  consume p ((flag, values) :: cmd) st
  = if bool_decide (flag ∈ ["-h"; "--help"]) then Help else
    match find_action p flag with
    | None =>
        consume p cmd {| ns := ns st; seen := seen st; extras := true |}
    | Some a =>
        match arity a, values with
        | NargsNone, [] => Error "expected one argument"
        | NargsPlus, [] => Error "expected at least one argument"
        | _, v :: rest =>
            if in_group p a
               && bool_decide (Exists (λ d, d ≠ dest a) (seen st)) then
              Error "not allowed with argument"
            else
              consume p cmd
                {| ns := <[dest a :=
                             match arity a with
                             | NargsNone => PStr v
                             | NargsPlus => PList values
                             end]> (ns st);
                   seen := if in_group p a then dest a :: seen st
                           else seen st;
                   extras := extras st
                             || match arity a, rest with
                                | NargsNone, _ :: _ => true
                                | _, _ => false
                                end |}
        end
    end.
Proof. reflexivity. Qed.

Lemma find_action_Some flag a :
  find_action parser flag = Some a →
  a ∈ [accion_input; accion_genes; accion_output; accion_organism]
  ∧ flag ∈ option_strings a.
Proof.
  unfold find_action. rewrite parser_all_actions.
  destruct (list_find _ _) as [[i a']|] eqn:Hf; [|done].
  intros [= ->]. apply list_find_Some in Hf as (Hi & Ho & _).
  split; [by eapply list_elem_of_lookup_2|].
  unfold has_option in Ho. by apply bool_decide_eq_true in Ho.
Qed.

Lemma given_cons d o cmd :
  given parser d (o :: cmd)
  = bool_decide (dest <$> find_action parser o.1 = Some d)
    || given parser d cmd.
Proof.
  unfold given. rewrite <- bool_decide_or. apply bool_decide_ext.
  apply Exists_cons.
Qed.

Lemma given_nil d : given parser d [] = false.
Proof.
  unfold given. apply bool_decide_eq_false. by intros ?%Exists_nil.
Qed.
Lemma conflicto_input st :
  coherente st →
  bool_decide (Exists (λ d, d ≠ "input") (seen st))
  = bool_decide ("genes" ∈ seen st).
Proof.
  intros [Hall _]. apply bool_decide_ext. rewrite Exists_exists. split.
  - intros (d & Hd & Hne). rewrite Forall_forall in Hall.
    by destruct (Hall d Hd) as [->| ->].
  - intros Hg. by exists "genes".
Qed.

Lemma conflicto_genes st :
  coherente st →
  bool_decide (Exists (λ d, d ≠ "genes") (seen st))
  = bool_decide ("input" ∈ seen st).
Proof.
  intros [Hall _]. apply bool_decide_ext. rewrite Exists_exists. split.
  - intros (d & Hd & Hne). rewrite Forall_forall in Hall.
    by destruct (Hall d Hd) as [->| ->].
  - intros Hg. by exists "input".
Qed.

Lemma coherente_input st n e :
  coherente st → "genes" ∉ seen st →
  coherente {| ns := n; seen := "input" :: seen st; extras := e |}.
Proof.
  intros [Hall Hno] Hg. split; simpl.
  - by constructor; [left|].
  - intros [_ H]. apply elem_of_cons in H as [?|?]; done.
Qed.

Lemma coherente_genes st n e :
  coherente st → "input" ∉ seen st →
  coherente {| ns := n; seen := "genes" :: seen st; extras := e |}.
Proof.
  intros [Hall Hno] Hg. split; simpl.
  - by constructor; [right|].
  - intros [H _]. apply elem_of_cons in H as [?|?]; done.
Qed.

Lemma coherente_igual st n e :
  coherente st → coherente {| ns := n; seen := seen st; extras := e |}.
Proof. by intros [? ?]. Qed.

(** At the end of the command line exactly one member of the group
    must have been given. *)
Lemma uno_visto st :
  coherente st →
  (seen st ≠ []
   ↔ xorb (bool_decide ("input" ∈ seen st))
          (bool_decide ("genes" ∈ seen st)) = true).
Proof.
  intros [Hall Hno]. split.
  - intros Hne. destruct (seen st) as [|d l] eqn:E; [done|].
    destruct (decide ("input" ∈ d :: l)) as [Hi|Hi];
      destruct (decide ("genes" ∈ d :: l)) as [Hg|Hg].
    + by destruct Hno.
    + by rewrite bool_decide_true, bool_decide_false.
    + by rewrite bool_decide_false, bool_decide_true.
    + apply Forall_cons in Hall as [[->| ->] _];
        [destruct Hi|destruct Hg]; left.
  - intros Hx Hnil. rewrite Hnil in Hx.
    by rewrite bool_decide_false in Hx by apply not_elem_of_nil.
Qed.

Lemma visto_cons_eq d (l : list string) : bool_decide (d ∈ d :: l) = true.
Proof. apply bool_decide_eq_true. left. Qed.

Lemma visto_cons_ne d d' (l : list string) :
  d ≠ d' → bool_decide (d ∈ d' :: l) = bool_decide (d ∈ l).
Proof. intros Hne. apply bool_decide_ext. set_solver. Qed.

(** Reduces what the scan does with one of the four declared
    arguments. *)
Ltac una_accion H :=
  cbn [arity dest accion_input accion_genes accion_output
       accion_organism] in H;
  change (in_group parser accion_input) with true in H;
  change (in_group parser accion_genes) with true in H;
  change (in_group parser accion_output) with false in H;
  change (in_group parser accion_organism) with false in H;
  cbn [andb] in H.

Lemma consume_sound cmd st args :
  coherente st →
  consume parser cmd st = Parsed args →
  xorb (dado "input" st cmd) (dado "genes" st cmd) = true
  ∧ (given parser "output" cmd = false →
     args !! "output" = ns st !! "output")
  ∧ (given parser "organism" cmd = false →
     args !! "organism" = ns st !! "organism").
Proof.
  revert st. induction cmd as [|[flag values] cmd IH]; intros st Hco H.
  - rewrite consume_nil in H. unfold dado. rewrite !given_nil, !orb_false_r.
    change (group_required parser) with true in H. cbn [andb] in H.
    destruct (bool_decide (seen st = [])) eqn:E; [done|].
    destruct (extras st); [done|]. injection H as <-.
    split_and!; [|done..].
    apply uno_visto; [done|]. by apply bool_decide_eq_false in E.
  - rewrite consume_cons in H.
    destruct (bool_decide (flag ∈ ["-h"; "--help"])); [done|].
    unfold dado. rewrite !given_cons. cbn [fst].
    destruct (find_action parser flag) as [a|] eqn:Hf.
    + apply find_action_Some in Hf as [Ha _].
      rewrite !elem_of_cons, elem_of_nil in Ha.
      destruct Ha as [->|[->|[->|[->|[]]]]]; una_accion H;
        (destruct values as [|v rest]; [done|]).
      * rewrite conflicto_input in H by done.
        destruct (bool_decide ("genes" ∈ seen st)) eqn:Eg; [done|].
        apply IH in H as (Hx & Ho & Hr);
          [|apply coherente_input;
            [done|by apply bool_decide_eq_false in Eg]].
        unfold dado in Hx. cbn [seen ns] in Hx, Ho, Hr.
        rewrite visto_cons_eq, visto_cons_ne, Eg in Hx by done.
        rewrite lookup_insert_ne in Ho by done.
        rewrite lookup_insert_ne in Hr by done.
        cbn in Hx |- *. rewrite orb_true_r. by split_and!.
      * rewrite conflicto_genes in H by done.
        destruct (bool_decide ("input" ∈ seen st)) eqn:Ei; [done|].
        apply IH in H as (Hx & Ho & Hr);
          [|apply coherente_genes;
            [done|by apply bool_decide_eq_false in Ei]].
        unfold dado in Hx. cbn [seen ns] in Hx, Ho, Hr.
        rewrite visto_cons_ne, visto_cons_eq, Ei in Hx by done.
        rewrite lookup_insert_ne in Ho by done.
        rewrite lookup_insert_ne in Hr by done.
        cbn in Hx |- *. rewrite orb_true_r. by split_and!.
      * apply IH in H as (Hx & Ho & Hr); [|by apply coherente_igual].
        unfold dado in Hx. cbn [seen ns] in Hx, Ho, Hr.
        rewrite lookup_insert_ne in Hr by done.
        cbn. by split_and!.
      * apply IH in H as (Hx & Ho & Hr); [|by apply coherente_igual].
        unfold dado in Hx. cbn [seen ns] in Hx, Ho, Hr.
        rewrite lookup_insert_ne in Ho by done.
        cbn. by split_and!.
    + apply IH in H as (Hx & Ho & Hr); [|by apply coherente_igual].
      cbn. by split_and!.
Qed.

Lemma declarada_no_es_ayuda flag a :
  find_action parser flag = Some a →
  bool_decide (flag ∈ ["-h"; "--help"]) = false.
Proof.
  intros [Ha Hflag]%find_action_Some.
  rewrite !elem_of_cons, elem_of_nil in Ha.
  destruct Ha as [->|[->|[->|[->|[]]]]]; simpl in Hflag;
    rewrite !elem_of_cons, elem_of_nil in Hflag;
    destruct Hflag as [->|[->|[]]]; by vm_compute.
Qed.

(** Computes the comparisons of the attribute of a declared argument
    with a given attribute. *)
Ltac compara_destinos H :=
  repeat match type of H with
         | context [bool_decide (dest <$> Some ?a = Some ?d)] =>
             let b := eval vm_compute in
                        (bool_decide (dest <$> Some a = Some d)) in
             change (bool_decide (dest <$> Some a = Some d)) with b in H
         end.

Lemma consume_complete cmd st :
  bien_formada cmd → coherente st → extras st = false →
  xorb (dado "input" st cmd) (dado "genes" st cmd) = true →
  ∃ args, consume parser cmd st = Parsed args.
Proof.
  revert st.
  induction cmd as [|[flag values] cmd IH]; intros st Hwf Hco Hex Hx.
  - rewrite consume_nil. unfold dado in Hx.
    rewrite !given_nil, !orb_false_r in Hx.
    apply uno_visto in Hx; [|done].
    rewrite (bool_decide_false _ Hx), Hex, andb_false_r. by eexists.
  - apply Forall_cons in Hwf as [Ho Hwf]. cbn [fst snd] in Ho.
    rewrite consume_cons. unfold dado in Hx. rewrite !given_cons in Hx.
    cbn [fst] in Hx.
    destruct (find_action parser flag) as [a|] eqn:Hf; [|done].
    rewrite (declarada_no_es_ayuda _ _ Hf).
    apply find_action_Some in Hf as [Ha _].
    rewrite !elem_of_cons, elem_of_nil in Ha.
    destruct Ha as [->|[->|[->|[->|[]]]]];
      cbn [arity dest accion_input accion_genes accion_output
           accion_organism] in Ho |- *;
      change (in_group parser accion_input) with true;
      change (in_group parser accion_genes) with true;
      change (in_group parser accion_output) with false;
      change (in_group parser accion_organism) with false;
      cbn [andb]; compara_destinos Hx; cbn [orb] in Hx.
    + destruct values as [|v [|? ?]]; try done.
      rewrite orb_true_r in Hx. cbn [xorb] in Hx.
      apply negb_true_iff in Hx. apply orb_false_iff in Hx as [Hg Hg'].
      rewrite conflicto_input, Hg by done.
      apply IH; [done| |by rewrite Hex|].
      * apply coherente_input; [done|by apply bool_decide_eq_false in Hg].
      * unfold dado. cbn [seen].
        by rewrite visto_cons_eq, visto_cons_ne, Hg, Hg'.
    + destruct values as [|v rest]; try done.
      rewrite orb_true_r, xorb_true_r in Hx.
      apply negb_true_iff in Hx. apply orb_false_iff in Hx as [Hi Hi'].
      rewrite conflicto_genes, Hi by done.
      apply IH; [done| |by rewrite Hex|].
      * apply coherente_genes; [done|by apply bool_decide_eq_false in Hi].
      * unfold dado. cbn [seen].
        by rewrite visto_cons_ne, visto_cons_eq, Hi, Hi'.
    + destruct values as [|v [|? ?]]; try done.
      apply IH; [done|by apply coherente_igual|by rewrite Hex|done].
    + destruct values as [|v [|? ?]]; try done.
      apply IH; [done|by apply coherente_igual|by rewrite Hex|done].
Qed.
End CommandLine.

(** C7. The command line is accepted only with exactly one of
    [-i/--input] and [-g/--genes]: with both, or with neither, it is
    refused, and a command line made of declared options with their
    arguments is accepted as soon as exactly one of the two is given.  On an
    accepted command line, [output] is ['results'] when [-o/--output] is
    not given and [organism] is ['hsapiens'] when [-org/--organism] is not
    given. *)
Theorem cli_entrada_exclusiva cmd :
  (∀ args,
     Argparse.parse_args parser cmd = Argparse.Parsed args →
     xorb (Argparse.given parser "input" cmd)
          (Argparse.given parser "genes" cmd) = true
     ∧ (Argparse.given parser "output" cmd = false →
        args !! "output" = Some (PStr "results"))
     ∧ (Argparse.given parser "organism" cmd = false →
        args !! "organism" = Some (PStr "hsapiens")))
  ∧ (bien_formada cmd →
     xorb (Argparse.given parser "input" cmd)
          (Argparse.given parser "genes" cmd) = true →
     ∃ args, Argparse.parse_args parser cmd = Argparse.Parsed args).
Proof.
  assert (coherente {| Argparse.ns := Argparse.defaults parser;
                       Argparse.seen := []; Argparse.extras := false |})
    as Hco.
  { split; [constructor|]. by intros [?%elem_of_nil _]. }
  split.
  - intros args H. unfold Argparse.parse_args in H.
    by apply consume_sound in H.
  - intros Hwf Hx. by apply consume_complete.
Qed.

Lemma cli_entrada_exclusiva_witness :
  bien_formada [("--input", ["genes.txt"]); ("-org", ["mmusculus"])]
  ∧ ∃ args,
      Argparse.parse_args parser
        [("--input", ["genes.txt"]); ("-org", ["mmusculus"])]
      = Argparse.Parsed args
      ∧ args !! "output" = Some (PStr "results").
Proof.
  assert (bien_formada [("--input", ["genes.txt"]); ("-org", ["mmusculus"])])
    as Hwf by (repeat constructor).
  split; [exact Hwf|].
  destruct (cli_entrada_exclusiva
              [("--input", ["genes.txt"]); ("-org", ["mmusculus"])])
    as [Hs Hc].
  destruct (Hc Hwf eq_refl) as [args Hargs].
  exists args. split; [exact Hargs|].
  destruct (Hs args Hargs) as (_ & Ho & _). by apply Ho.
Defined.


(** ** Further properties of the reading *)

Section ReadingMore.
Import PyStr.

Lemma contains_lstrip c s : contains c (lstrip s) = true → contains c s = true.
Proof.
  induction s as [|d s IH]; simpl; [done|].
  destruct (isspace d); simpl; [|done].
  intros H. destruct (decide (d = c)); [done|by apply IH].
Qed.

Lemma contains_rstrip c s : contains c (rstrip s) = true → contains c s = true.
Proof.
  induction s as [|d s IH]; simpl; [done|].
  destruct (rstrip s) as [|e r] eqn:E.
  - destruct (isspace d); simpl; [done|].
    by destruct (decide (d = c)).
  - simpl in *. destruct (decide (d = c)); [done|]. exact IH.
Qed.

Lemma contains_strip c s : contains c (strip s) = true → contains c s = true.
Proof. intros H. by apply contains_lstrip, contains_rstrip. Qed.

(** A piece between separators holds no separator, and only characters
    of the content. *)
Lemma tokens_sin_separador f s t c :
  t ∈ tokens f s → contains c t = true → f c = false ∧ contains c s = true.
Proof.
  revert t. induction s as [|d s IH]; simpl; intros t Ht Hc.
  - apply list_elem_of_singleton in Ht as ->. done.
  - destruct (f d) eqn:Ef.
    + apply elem_of_cons in Ht as [->|Ht]; [done|].
      destruct (IH t Ht Hc) as [? ?]. split; [done|].
      by destruct (decide (d = c)).
    + destruct (tokens f s) as [|p ps] eqn:Et.
      * apply list_elem_of_singleton in Ht as ->. simpl in Hc.
        by destruct (decide (d = c)) as [->|].
      * apply elem_of_cons in Ht as [->|Ht].
        -- simpl in Hc. destruct (decide (d = c)) as [->|Hne]; [done|].
           apply (IH p); [left|done].
        -- destruct (IH t) as [? ?]; [by right|done|].
           split; [done|]. by destruct (decide (d = c)).
Qed.

Lemma leer_genes_spec_sin_separadores contenido g :
  g ∈ leer_genes_spec contenido →
  contains comma g = false ∧ contains nl g = false.
Proof.
  intros Hg. apply list_elem_of_filter in Hg as [_ Hg].
  apply list_elem_of_fmap in Hg as (t & -> & Ht).
  assert (∀ c, contains c (strip t) = true →
               separador contenido c = false
               ∧ contains c contenido = true) as Hsep.
  { intros c Hc%contains_strip. by eapply tokens_sin_separador. }
  split.
  - destruct (contains comma (strip t)) eqn:E; [|done].
    destruct (Hsep _ E) as [Hs Hc]. unfold separador in Hs.
    rewrite Hc in Hs. by rewrite bool_decide_true in Hs.
  - destruct (contains nl (strip t)) eqn:E; [|done].
    destruct (Hsep _ E) as [Hs Hc]. unfold separador in Hs.
    destruct (contains comma contenido);
      by rewrite (bool_decide_true (nl = nl)), ?orb_true_r in Hs.
Qed.
End ReadingMore.

(** X1. A file that cannot be read ends the run: [leer_genes] prints
    [[ERROR] Archivo no encontrado] with the path for a
    [FileNotFoundError], [[ERROR] Error al leer archivo] with the message
    for any other exception, and exits with status 1; [main] then sends no
    lookup, no enrichment query, and writes no file. *)
Theorem leer_genes_falla w archivo e :
  read_file w archivo = Raised e →
  leer_genes w archivo
  = MkRun [OpenRead archivo;
           Print (if decide (exc_class e = "FileNotFoundError")
                  then "[ERROR] Archivo no encontrado: " +:+ archivo
                  else "[ERROR] Error al leer archivo: " +:+ exc_msg e)]
          (SysExit 1)
  ∧ ∀ argv args,
      Argparse.parse_args parser argv = Argparse.Parsed args →
      attr args "input" = PStr archivo → archivo ≠ EmptyString →
      result (main w argv) = SysExit 1
      ∧ consultas (trace (main w argv)) = []
      ∧ analisis (trace (main w argv)) = []
      ∧ written (trace (main w argv)) = [].
Proof.
  intros H.
  assert (leer_genes w archivo
          = MkRun [OpenRead archivo;
                   Print (if decide (exc_class e = "FileNotFoundError")
                          then "[ERROR] Archivo no encontrado: " +:+ archivo
                          else "[ERROR] Error al leer archivo: " +:+ exc_msg e)]
                  (SysExit 1)) as Hl.
  { unfold leer_genes. cbn. rewrite H. by destruct (decide _). }
  split; [done|].
  intros argv args Hp Ha Hne. unfold main. cbn. rewrite Hp. cbn.
  unfold genes_de_entrada. rewrite Ha.
  destruct archivo as [|c s]; [done|]. by rewrite Hl.
Qed.

Lemma leer_genes_falla_witness :
  let w := mundo_sin_conexion (Returned None) in
  read_file w "genes.txt" = Raised (Exc "FileNotFoundError" "genes.txt")
  ∧ trace (leer_genes w "genes.txt")
    = [OpenRead "genes.txt";
       Print "[ERROR] Archivo no encontrado: genes.txt"]
  ∧ result (main w [("-i", ["genes.txt"])]) = SysExit 1.
Proof.
  split; [reflexivity|].
  destruct (leer_genes_falla (mundo_sin_conexion (Returned None))
              "genes.txt" (Exc "FileNotFoundError" "genes.txt") eq_refl)
    as [Hl Hm].
  split; [by rewrite Hl|].
  by destruct (Hm [("-i", ["genes.txt"])]
                 (<["input" := PStr "genes.txt"]> (Argparse.defaults parser))
                 eq_refl eq_refl) as (? & _).
Defined.

(** X2. No identifier that [leer_genes] returns holds a comma or a
    newline, whichever of the two formats the file has. *)
Theorem leer_genes_sin_separadores w archivo contenido :
  read_file w archivo = Returned contenido →
  ∃ genes,
    result (leer_genes w archivo) = Return genes
    ∧ Forall (λ g, PyStr.contains PyStr.comma g = false
                   ∧ PyStr.contains PyStr.nl g = false) genes.
Proof.
  intros H. exists (genes_de_contenido contenido).
  split; [by apply leer_genes_readable|].
  rewrite genes_de_contenido_spec. apply Forall_forall.
  intros g Hg. by eapply leer_genes_spec_sin_separadores.
Qed.

Lemma leer_genes_sin_separadores_witness :
  read_file mundo_ejemplo "genes.txt"
  = Returned ("COX4I2, ND1" +:+ salto +:+ "ATP6  " +:+ salto)
  ∧ ∃ genes,
      result (leer_genes mundo_ejemplo "genes.txt") = Return genes
      ∧ Forall (λ g, PyStr.contains PyStr.comma g = false
                     ∧ PyStr.contains PyStr.nl g = false) genes.
Proof.
  split; [reflexivity|].
  exact (leer_genes_sin_separadores mundo_ejemplo "genes.txt" _ eq_refl).
Defined.

(** ** Writing a list of identifiers and reading it back *)

Section RoundTrip.
Import PyStr.

Lemma contains_append c a b :
  contains c (a +:+ b) = contains c a || contains c b.
Proof.
  induction a as [|d a IH]; [done|].
  change (contains c (String d (a +:+ b))
          = contains c (String d a) || contains c b).
  simpl. by destruct (decide (d = c)).
Qed.

Lemma split_sin sep a : contains sep a = false → split sep a = [a].
Proof.
  induction a as [|d a IH]; simpl; [done|].
  destruct (decide (d = sep)); [done|]. intros H. by rewrite IH.
Qed.

Lemma split_append sep a b :
  contains sep a = false →
  split sep (a +:+ String sep b) = a :: split sep b.
Proof.
  induction a as [|d a IH]; intros H.
  - change (split sep (String sep b) = EmptyString :: split sep b).
    simpl. by rewrite decide_True.
  - change (split sep (String d (a +:+ String sep b))
            = String d a :: split sep b).
    simpl in *. destruct (decide (d = sep)); [done|]. by rewrite IH.
Qed.

Lemma replace_id old new s : contains old s = false → replace old new s = s.
Proof.
  induction s as [|d s IH]; simpl; [done|].
  destruct (decide (d = old)); [done|]. intros H. by rewrite IH.
Qed.

Lemma lstrip_id s :
  (∀ c, first s = Some c → isspace c = false) → lstrip s = s.
Proof. destruct s as [|d s]; simpl; [done|]. intros H. by rewrite H. Qed.

Lemma rstrip_id s :
  (∀ c, last s = Some c → isspace c = false) → rstrip s = s.
Proof.
  induction s as [|d s IH]; simpl; [done|]. intros H.
  destruct s as [|e s].
  - simpl. by rewrite H.
  - rewrite IH by done. done.
Qed.

Lemma strip_limpio g : limpio g → strip g = g.
Proof.
  intros (_ & [Hf Hl] & _). unfold strip.
  by rewrite lstrip_id, rstrip_id.
Qed.

(** A space in front of a clean identifier is stripped away. *)
Lemma strip_espacio g : limpio g → strip (String " " g) = g.
Proof. intros H. unfold strip. simpl. by apply strip_limpio. Qed.

(** Pieces that strip to clean identifiers are all kept, stripped. *)
Lemma limpiar_piezas ps l :
  Forall2 (λ p g, strip p = g ∧ limpio g) ps l → limpiar ps = l.
Proof.
  unfold limpiar. induction 1 as [|p g ps l [Hs Hg] _ IH]; [done|].
  rewrite filter_cons_True.
  - by rewrite fmap_cons, IH, Hs.
  - rewrite Hs. destruct Hg as [Hne _]. by apply truthy_spec.
Qed.

Lemma limpiar_vacio : limpiar [EmptyString] = [].
Proof. reflexivity. Qed.

Lemma join_cons sep x y l :
  join sep (x :: y :: l) = x +:+ sep +:+ join sep (y :: l).
Proof. reflexivity. Qed.

(** The pieces of a list joined with a separator that starts with the
    cutting character: the first element, then every other element behind
    the rest of the separator. *)
Lemma split_join c resto x l :
  Forall (λ g, contains c g = false) (x :: l) →
  contains c resto = false →
  split c (join (String c resto) (x :: l))
  = x :: ((λ g, resto +:+ g) <$> l).
Proof.
  revert x. induction l as [|y l IH]; intros x Hall Hr.
  - apply Forall_cons in Hall as [Hx _]. by apply split_sin.
  - apply Forall_cons in Hall as [Hx Hall]. rewrite join_cons.
    change (String c resto +:+ join (String c resto) (y :: l))
      with (String c (resto +:+ join (String c resto) (y :: l))).
    rewrite split_append by done.
    f_equal.
    pose proof (IH y Hall Hr) as Hy.
    assert (∀ s ps, split c s = y :: ps →
                    split c (resto +:+ s) = (resto +:+ y) :: ps) as Hpre.
    { clear -Hr. intros s ps Hs.
      induction resto as [|d resto IHr]; [done|].
      change (split c (String d (resto +:+ s))
              = String d (resto +:+ y) :: ps).
      simpl in *. destruct (decide (d = c)); [done|].
      by rewrite IHr. }
    by rewrite (Hpre _ _ Hy).
Qed.

Lemma contains_join c sep l :
  contains c sep = false → Forall (λ g, contains c g = false) l →
  contains c (join sep l) = false.
Proof.
  intros Hs. induction l as [|x l IH]; intros Hall; [done|].
  apply Forall_cons in Hall as [Hx Hall].
  destruct l as [|y l]; [done|].
  rewrite join_cons, !contains_append, Hx, Hs.
  by rewrite IH.
Qed.
End RoundTrip.

Lemma limpios_sin c l :
  c = PyStr.comma ∨ c = PyStr.nl →
  Forall limpio l → Forall (λ g, PyStr.contains c g = false) l.
Proof.
  intros Hc Hl. eapply Forall_impl; [exact Hl|].
  intros g (_ & _ & Hco & Hnl). by destruct Hc as [-> | ->].
Qed.

Lemma piezas_limpias resto l :
  (∀ g, limpio g → PyStr.strip (resto +:+ g) = g) →
  Forall limpio l →
  Forall2 (λ p g, PyStr.strip p = g ∧ limpio g)
          ((λ g, resto +:+ g) <$> l) l.
Proof.
  intros Hs. induction 1 as [|g l Hg _ IH]; [constructor|].
  rewrite fmap_cons. constructor; [|done]. split; [by apply Hs|done].
Qed.

(** X3. Reading back a list of clean identifiers written in either format
    of the docstring gives the list itself: one identifier per line, or
    the identifiers separated by a comma and a space. *)
Theorem leer_lo_escrito l :
  Forall limpio l →
  genes_de_contenido (PyStr.join salto l) = l
  ∧ genes_de_contenido (PyStr.join ", " l) = l.
Proof.
  intros Hl.
  pose proof (limpios_sin PyStr.comma l (or_introl eq_refl) Hl) as Hco.
  pose proof (limpios_sin PyStr.nl l (or_intror eq_refl) Hl) as Hnl.
  destruct l as [|x l]; [done|].
  pose proof Hl as Hl'. apply Forall_cons in Hl' as [Hx Hr].
  split.
  - unfold genes_de_contenido.
    rewrite (contains_join PyStr.comma salto) by done.
    unfold salto. rewrite split_join by done.
    apply limpiar_piezas. constructor; [by split; [apply strip_limpio|]|].
    apply piezas_limpias; [|done]. intros g Hg. by apply strip_limpio.
  - unfold genes_de_contenido.
    assert (PyStr.contains PyStr.nl (PyStr.join ", " (x :: l)) = false)
      as Hsin by by apply contains_join.
    destruct l as [|y l].
    + apply Forall_cons in Hco as [Hcx _]. simpl. rewrite Hcx.
      rewrite split_sin by done.
      apply limpiar_piezas. constructor; [|constructor].
      by split; [apply strip_limpio|].
    + assert (PyStr.contains PyStr.comma (PyStr.join ", " (x :: y :: l))
              = true) as ->.
      { rewrite join_cons, !contains_append. by rewrite orb_true_r. }
      rewrite replace_id by done.
      change ", " with (String PyStr.comma " "). rewrite split_join by done.
      apply limpiar_piezas. constructor; [by split; [apply strip_limpio|]|].
      apply piezas_limpias; [|done]. intros g Hg. by apply strip_espacio.
Qed.

Lemma leer_lo_escrito_witness :
  Forall limpio ["COX4I2"; "ND1"; "MT-ATP6"]
  ∧ genes_de_contenido (PyStr.join ", " ["COX4I2"; "ND1"; "MT-ATP6"])
    = ["COX4I2"; "ND1"; "MT-ATP6"].
Proof.
  assert (Forall limpio ["COX4I2"; "ND1"; "MT-ATP6"]) as H.
  { repeat constructor; try done;
      intros c; simpl; intros [= <-]; reflexivity. }
  split; [exact H|].
  exact (proj2 (leer_lo_escrito ["COX4I2"; "ND1"; "MT-ATP6"] H)).
Defined.

(** ** Further properties of the validation *)

Section ValidarMas.
Context (w : World) (genes : list string) (organismo : string).

(** The fields of the dict returned when the direct lookup completes. *)
Lemma validar_campos out v :
  querymany w genes (species_of organismo) = Returned out →
  result (validar_y_convertir_genes w genes organismo) = Return v →
  let P1 := primera genes out in
  let P2 := segunda (pendientes P1) (respuesta_mt w genes out organismo) in
  validos v = simbolos P1 ++ simbolos P2
  ∧ mapping v = dict_of (resueltos P1 ++ resueltos P2)
  ∧ no_encontrados v = pendientes P2
  ∧ advertencias v = aviso <$> pendientes P2.
Proof.
  intros Hout Hv P1 P2.
  pose proof (validar_resuelve w genes organismo out Hout) as Hres.
  cbv zeta in Hres. fold P1 P2 in Hres. rewrite Hv in Hres.
  destruct (simbolos P1 ++ simbolos P2) as [|s0 ss] eqn:E; [done|].
  by injection Hres as ->.
Qed.

Lemma length_simbolos_pendientes l :
  length (simbolos l) + length (pendientes l) = length l.
Proof.
  unfold simbolos, resueltos, pendientes.
  induction l as [|[g [s|]] l IH]; [done|..].
  - rewrite filter_cons_False by done. rewrite !length_fmap in *.
    cbn. cbn in IH. lia.
  - rewrite filter_cons_True by done. rewrite !length_fmap in *.
    cbn. cbn in IH. lia.
Qed.

Lemma length_primera out :
  length (primera genes out) = length genes `min` length out.
Proof. unfold primera. by rewrite length_fmap, length_zip. Qed.

Lemma length_segunda pend r :
  length (segunda pend r) ≤ length pend
  ∧ (cubre pend r → length (segunda pend r) = length pend).
Proof.
  destruct r as [out_mt|e]; simpl.
  - rewrite length_fmap, length_zip. lia.
  - rewrite length_fmap. lia.
Qed.

Lemma primera_fst_sublist out : (primera genes out).*1 `sublist_of` genes.
Proof.
  unfold primera. rewrite <- list_fmap_compose.
  replace ((fst ∘ (λ p : string * hit, (p.1, directo p.2)))
             <$> zip genes out) with ((zip genes out).*1)
    by (apply list_fmap_ext; by intros ? [? ?]).
  apply zip_fst_sublist.
Qed.

Lemma segunda_fst_sublist pend r : (segunda pend r).*1 `sublist_of` pend.
Proof.
  destruct r as [out_mt|e]; simpl.
  - rewrite <- list_fmap_compose.
    replace ((fst ∘ (λ p : string * hit, (p.1, por_mt p.2)))
               <$> zip pend out_mt) with ((zip pend out_mt).*1)
      by (apply list_fmap_ext; by intros ? [? ?]).
    apply zip_fst_sublist.
  - rewrite <- list_fmap_compose. by rewrite list_fmap_id.
Qed.

Lemma pendientes_sublist (l : list (string * option string)) :
  pendientes l `sublist_of` l.*1.
Proof. apply fmap_sublist, sublist_filter. Qed.

Lemma resueltos_fst (l : list (string * option string)) g s :
  (g, s) ∈ resueltos l → g ∈ l.*1.
Proof.
  intros H%en_resueltos. apply list_elem_of_fmap. by exists (g, Some s).
Qed.
End ValidarMas.

(** X4. With an empty list of identifiers and a direct lookup that
    completes, whatever it answers, [validar_y_convertir_genes] sends that
    one lookup and exits with status 1. *)
Theorem validar_lista_vacia w organismo out :
  querymany w [] (species_of organismo) = Returned out →
  result (validar_y_convertir_genes w [] organismo) = SysExit 1
  ∧ consultas (trace (validar_y_convertir_genes w [] organismo))
    = [([], species_of organismo)].
Proof.
  intros Hout. split.
  - rewrite (validar_resuelve w [] organismo out Hout). cbv zeta.
    change (primera [] out) with (@nil (string * option string)).
    change (pendientes []) with (@nil string).
    by rewrite segunda_nil.
  - destruct (validar_trace w [] organismo) as (l1 & l2 & ->).
    rewrite Hout, consultas_app, prints_consultas. simpl.
    by rewrite prints_consultas.
Qed.

Lemma validar_lista_vacia_witness :
  querymany mundo_ejemplo [] (species_of "hsapiens") = Returned []
  ∧ result (validar_y_convertir_genes mundo_ejemplo [] "hsapiens")
    = SysExit 1.
Proof.
  split; [reflexivity|].
  exact (proj1 (validar_lista_vacia mundo_ejemplo "hsapiens" [] eq_refl)).
Defined.

(** X5. The validated symbols and the identifiers not found never
    outnumber the input identifiers, and they are exactly as many when
    MyGene.info answers every identifier it is asked: each identifier is
    counted once, as validated or as not found. *)
Theorem validar_cuenta w genes organismo out v :
  querymany w genes (species_of organismo) = Returned out →
  result (validar_y_convertir_genes w genes organismo) = Return v →
  length (validos v) + length (no_encontrados v) ≤ length genes
  ∧ (length genes ≤ length out →
     cubre (pendientes (primera genes out))
           (respuesta_mt w genes out organismo) →
     length (validos v) + length (no_encontrados v) = length genes).
Proof.
  intros Hout Hv.
  destruct (validar_campos w genes organismo out v Hout Hv)
    as (-> & _ & -> & _).
  rewrite length_app.
  pose proof (length_simbolos_pendientes (primera genes out)) as H1.
  pose proof (length_simbolos_pendientes
                (segunda (pendientes (primera genes out))
                   (respuesta_mt w genes out organismo))) as H2.
  pose proof (length_primera genes out) as H3.
  destruct (length_segunda (pendientes (primera genes out))
              (respuesta_mt w genes out organismo)) as [H4 H5].
  split; [lia|]. intros Hlen Hc. specialize (H5 Hc). lia.
Qed.

Lemma validar_cuenta_witness :
  ∃ v,
    result (validar_y_convertir_genes mundo_ejemplo
              ["COX4I2"; "ND1"; "XYZ"] "hsapiens") = Return v
    ∧ length (validos v) + length (no_encontrados v) = 3.
Proof.
  eexists. split; [reflexivity|].
  exact (proj2 (validar_cuenta mundo_ejemplo ["COX4I2"; "ND1"; "XYZ"]
                  "hsapiens"
                  (responder tabla_ejemplo ["COX4I2"; "ND1"; "XYZ"])
                  _ eq_refl eq_refl)
           ltac:(vm_compute; lia) ltac:(vm_compute; lia)).
Defined.

(** X6. When the direct lookup completes, the warnings returned are one
    per identifier not found, in the same order, each of the form
    [Gen no encontrado: '<identifier>']. *)
Theorem validar_advertencias w genes organismo out v :
  querymany w genes (species_of organismo) = Returned out →
  result (validar_y_convertir_genes w genes organismo) = Return v →
  advertencias v
  = (λ g, "Gen no encontrado: '" +:+ g +:+ "'") <$> no_encontrados v.
Proof.
  intros Hout Hv.
  by destruct (validar_campos w genes organismo out v Hout Hv)
    as (_ & _ & -> & ->).
Qed.

Lemma validar_advertencias_witness :
  ∃ v,
    result (validar_y_convertir_genes mundo_ejemplo
              ["COX4I2"; "XYZ"] "hsapiens") = Return v
    ∧ advertencias v = ["Gen no encontrado: 'XYZ'"].
Proof.
  eexists. split; [reflexivity|].
  exact (validar_advertencias mundo_ejemplo ["COX4I2"; "XYZ"] "hsapiens"
           (responder tabla_ejemplo ["COX4I2"; "XYZ"]) _ eq_refl eq_refl).
Defined.

(** X7. If the retry raises, every identifier that the direct lookup left
    without a symbol is recorded as not found, in order, and the validated
    symbols and the mapping are those of the direct lookup alone. *)
Theorem reintento_fallido w genes organismo out e v :
  querymany w genes (species_of organismo) = Returned out →
  respuesta_mt w genes out organismo = Raised e →
  result (validar_y_convertir_genes w genes organismo) = Return v →
  no_encontrados v = pendientes (primera genes out)
  ∧ validos v = simbolos (primera genes out)
  ∧ mapping v = dict_of (resueltos (primera genes out)).
Proof.
  intros Hout Hmt Hv.
  destruct (validar_campos w genes organismo out v Hout Hv)
    as (-> & -> & -> & _).
  rewrite Hmt. unfold simbolos.
  by rewrite segunda_raised_resueltos, segunda_raised_pendientes,
       !app_nil_r.
Qed.

Lemma reintento_fallido_witness :
  let w := mundo_mt_caido ["COX4I2"; "ND1"]
             [Hit None (Some "COX4I2"); Hit (Some true) None] in
  respuesta_mt w ["COX4I2"; "ND1"]
    [Hit None (Some "COX4I2"); Hit (Some true) None] "hsapiens"
  = Raised (Exc "ConnectionError" "Max retries exceeded")
  ∧ ∃ v,
      result (validar_y_convertir_genes w ["COX4I2"; "ND1"] "hsapiens")
      = Return v
      ∧ no_encontrados v = ["ND1"] ∧ validos v = ["COX4I2"].
Proof.
  split; [reflexivity|].
  eexists. split; [reflexivity|].
  destruct (reintento_fallido
              (mundo_mt_caido ["COX4I2"; "ND1"]
                 [Hit None (Some "COX4I2"); Hit (Some true) None])
              ["COX4I2"; "ND1"] "hsapiens"
              [Hit None (Some "COX4I2"); Hit (Some true) None]
              (Exc "ConnectionError" "Max retries exceeded") _
              eq_refl eq_refl eq_refl) as (Hn & Hv & _).
  split; [exact Hn|exact Hv].
Defined.

(** X8. [validar_y_convertir_genes] never makes up an identifier: every
    key of the mapping and every identifier recorded as not found is one
    of the input identifiers, on the fallback path as on the normal one. *)
Theorem validar_solo_entradas w genes organismo v :
  result (validar_y_convertir_genes w genes organismo) = Return v →
  (∀ g, g ∈ dict_keys (mapping v) → g ∈ genes)
  ∧ (∀ g, g ∈ no_encontrados v → g ∈ genes).
Proof.
  intros Hv.
  destruct (querymany w genes (species_of organismo)) as [out|e] eqn:Hq.
  - destruct (validar_campos w genes organismo out v Hq Hv)
      as (_ & -> & -> & _).
    assert (∀ g, g ∈ pendientes (primera genes out) → g ∈ genes) as Hpend.
    { intros g Hg.
      eapply elem_of_sublist; [|apply primera_fst_sublist].
      eapply elem_of_sublist; [exact Hg|apply pendientes_sublist]. }
    assert (∀ g, g ∈ (segunda (pendientes (primera genes out))
                        (respuesta_mt w genes out organismo)).*1 →
                 g ∈ genes) as Hseg.
    { intros g Hg. apply Hpend.
      eapply elem_of_sublist; [exact Hg|apply segunda_fst_sublist]. }
    split.
    + intros g Hg. apply (proj1 (dict_of_keys _ _)) in Hg.
      apply list_elem_of_fmap in Hg as ([g' s] & -> & Hin).
      apply elem_of_app in Hin as [Hin|Hin]; apply resueltos_fst in Hin.
      * eapply elem_of_sublist; [exact Hin|apply primera_fst_sublist].
      * by apply Hseg.
    + intros g Hg. apply Hseg.
      eapply elem_of_sublist; [exact Hg|apply pendientes_sublist].
  - rewrite (validar_sin_conexion w genes organismo e Hq) in Hv.
    injection Hv as <-. cbn [mapping no_encontrados]. split.
    + intros g Hg%dict_get_keys. rewrite identidad_get in Hg.
      destruct (decide (g ∈ genes)); [done|by destruct Hg].
    + by intros g ?%elem_of_nil.
Qed.

Lemma validar_solo_entradas_witness :
  ∃ v,
    result (validar_y_convertir_genes mundo_ejemplo
              ["COX4I2"; "ND1"; "XYZ"] "hsapiens") = Return v
    ∧ (∀ g, g ∈ dict_keys (mapping v) → g ∈ ["COX4I2"; "ND1"; "XYZ"]).
Proof.
  eexists. split; [reflexivity|].
  exact (proj1 (validar_solo_entradas mundo_ejemplo
                  ["COX4I2"; "ND1"; "XYZ"] "hsapiens" _ eq_refl)).
Defined.

(** X9. [validar_y_convertir_genes] sends at most two lookups, whatever
    the number of identifiers: the direct lookup of the whole list, then,
    only when it completed and left identifiers without a symbol, one retry
    holding those identifiers, each with the [MT-] prefix. *)
Theorem validar_consultas w genes organismo :
  consultas (trace (validar_y_convertir_genes w genes organismo))
  = (genes, species_of organismo)
    :: match querymany w genes (species_of organismo) with
       | Returned out =>
           match pendientes (primera genes out) with
           | [] => []
           | pend => [(variantes_mt pend, species_of organismo)]
           end
       | Raised _ => []
       end.
Proof.
  destruct (validar_trace w genes organismo) as (l1 & l2 & ->).
  rewrite consultas_app, prints_consultas.
  destruct (querymany w genes (species_of organismo)) as [out|e];
    [destruct (pendientes (primera genes out))|]; simpl;
    by rewrite prints_consultas.
Qed.


(** ** Further properties of the export *)




Lemma df_empty_filas df l :
  df_empty df = false →
  df_empty {| columns := columns df; rows := l |}
  = match l with [] => true | _ :: _ => false end.
Proof.
  unfold df_empty. simpl. destruct (columns df); [done|]. by destruct l.
Qed.

(** X12. The file of a database is written at most once, and holds the
    columns of the result and exactly its rows whose ['source'] cell is
    that database, in order; it is not written when there is no such row,
    when the result is empty, or when the ['source'] column is missing. *)
Theorem archivo_por_base df v output item :
  item ∈ bases_datos →
  csv_en (path_join output item.2)
         (trace (exportar_resultados df v output))
  = match column_index "source" (columns df) with
    | Some i =>
        let filas :=
          filter (λ r, cell_eq_str (r !! i) item.1 = true) (rows df) in
        if df_empty df then []
        else match filas with
             | [] => []
             | _ :: _ => [{| columns := columns df; rows := filas |}]
             end
    | None => []
    end.
Proof.
  intros Hitem. unfold exportar_resultados.
  unfold bases_datos in Hitem. rewrite !elem_of_cons, elem_of_nil in Hitem.
  destruct (df_empty df) eqn:He.
  { destruct Hitem as [->|[->|[->|[]]]]; cbn;
      destruct (column_index "source" (columns df)); by rutas. }
  unfold exportar_base, bases_datos, df_where.
  destruct (column_index "source" (columns df)) as [i|]; cbn.
  2: { destruct Hitem as [->|[->|[->|[]]]]; cbn; by rutas. }
  rewrite !(df_empty_filas df _ He).
  destruct Hitem as [->|[->|[->|[]]]]; cbn;
    repeat match goal with
           | |- context [match filter ?P ?l with _ => _ end] =>
               destruct (filter P l)
           end; cbn; by rutas.
Qed.

Lemma archivo_por_base_witness :
  ("KEGG", "KEGG_resultados.csv") ∈ bases_datos
  ∧ csv_en "results/KEGG_resultados.csv"
           (trace (exportar_resultados df_kegg
                     {| validos := []; mapping := []; no_encontrados := [];
                        advertencias := [] |} "results"))
    = [df_kegg].
Proof.
  assert (("KEGG", "KEGG_resultados.csv") ∈ bases_datos) as H
    by (right; left).
  split; [exact H|].
  exact (archivo_por_base df_kegg _ "results"
           ("KEGG", "KEGG_resultados.csv") H).
Defined.

(** ** The whole run *)

Section RunOrder.
Context (w : World).

Lemma analizar_consultas genes organismo :
  consultas (trace (analizar_genes w genes organismo)) = [].
Proof.
  destruct (analizar_trace w genes organismo) as (l1 & l2 & ->).
  rewrite consultas_app, prints_consultas. simpl.
  by rewrite prints_consultas.
Qed.

Lemma exportar_consultas df v output :
  consultas (trace (exportar_resultados df v output)) = [].
Proof.
  unfold exportar_resultados.
  destruct (df_empty df) eqn:He; [done|].
  unfold exportar_base, bases_datos, df_where.
  destruct (column_index "source" (columns df)) as [i|]; [|done].
  cbn.
  repeat match goal with
         | |- context [df_empty {| columns := ?c; rows := filter ?P ?l |}] =>
             destruct (df_empty {| columns := c; rows := filter P l |})
         end; by cbn.
Qed.

(** The lookups of a run of the three stages are those of the
    validation. *)
Lemma etapas_consultas genes organism output :
  consultas (trace (etapas w genes organism output))
  = consultas (trace (validar_y_convertir_genes w genes organism)).
Proof.
  unfold etapas. rewrite trace_bind, consultas_app.
  destruct (result (validar_y_convertir_genes w genes organism)) as [v| |];
    rewrite ?app_nil_r; [|done..].
  rewrite trace_bind, consultas_app, analizar_consultas, analizar_result.
  rewrite trace_bind, consultas_app, exportar_consultas.
  destruct (result (exportar_resultados _ v output)) as [[]| |];
    by rewrite ?app_nil_r.
Qed.

Lemma validar_dos_consultas genes organismo :
  ∃ rest,
    consultas (trace (validar_y_convertir_genes w genes organismo))
    = (genes, species_of organismo) :: rest
    ∧ length rest ≤ 1.
Proof.
  destruct (validar_trace w genes organismo) as (l1 & l2 & ->).
  rewrite consultas_app, prints_consultas.
  destruct (querymany w genes (species_of organismo)) as [out|e];
    [destruct (pendientes (primera genes out))|]; simpl;
    rewrite prints_consultas; eexists; split; try done; simpl; lia.
Qed.

Lemma genes_de_entrada_consultas args :
  consultas (trace (genes_de_entrada w args)) = [].
Proof.
  destruct (genes_de_entrada_trace w args) as [->|(a & l & ->)]; [done|].
  simpl. by rewrite prints_consultas.
Qed.

(** The run of [main] on a command line that parses, whatever the
    reading of the identifiers gives. *)
Lemma main_tras_parse argv args :
  Argparse.parse_args parser argv = Argparse.Parsed args →
  main w argv
  = MkRun
      (cabecera ++ trace (genes_de_entrada w args)
       ++ match result (genes_de_entrada w args) with
          | Return (Some genes) =>
              trace (etapas w genes (attr_str args "organism")
                       (attr_str args "output"))
          | Return None => trace encabezado_validacion
          | _ => []
          end)
      match result (genes_de_entrada w args) with
      | Return (Some genes) =>
          result (etapas w genes (attr_str args "organism")
                    (attr_str args "output"))
      | Return None =>
          Uncaught (Exc "TypeError" "object of type 'NoneType' has no len()")
      | SysExit c => SysExit c
      | Uncaught e => Uncaught e
      end.
Proof.
  intros Hp. unfold main. cbn. rewrite Hp. cbn.
  destruct (genes_de_entrada w args) as [t [[genes|]|c|e]]; cbn;
    by rewrite ?app_nil_r.
Qed.

Lemma main_sin_parse argv :
  (∀ args, Argparse.parse_args parser argv ≠ Argparse.Parsed args) →
  (result (main w argv) = SysExit 0 ∨ result (main w argv) = SysExit 2)
  ∧ consultas (trace (main w argv)) = []
  ∧ analisis (trace (main w argv)) = []
  ∧ written (trace (main w argv)) = [].
Proof.
  intros Hno. unfold main. cbn.
  destruct (Argparse.parse_args parser argv) as [args| |m];
    [by destruct (Hno args)|cbn; split_and!; by auto..].
Qed.
End RunOrder.

(** X13. In every run of [main], whatever the command line and the
    outside world: a file is written only if the enrichment query was
    sent, the enrichment query is sent only after a lookup, at most one
    enrichment query and at most two lookups are sent. *)
Theorem orden_de_la_ejecucion w argv :
  (written (trace (main w argv)) ≠ [] → analisis (trace (main w argv)) ≠ [])
  ∧ (analisis (trace (main w argv)) ≠ [] →
     consultas (trace (main w argv)) ≠ [])
  ∧ length (analisis (trace (main w argv))) ≤ 1
  ∧ length (consultas (trace (main w argv))) ≤ 2.
Proof.
  destruct (Argparse.parse_args parser argv) as [args| |m] eqn:Hp.
  2,3: destruct (main_sin_parse w argv) as (_ & -> & -> & ->);
       [intros args; by rewrite Hp|split_and!; simpl; (done || lia)..].
  rewrite (main_tras_parse w argv args Hp). cbn [trace].
  rewrite !written_app, !analisis_app, !consultas_app.
  destruct (genes_de_entrada_silencioso w args) as (-> & -> & _).
  rewrite genes_de_entrada_consultas.
  change (written cabecera) with (@nil string).
  change (analisis cabecera)
    with (@nil (string * list string * list string)).
  change (consultas cabecera) with (@nil (list string * string)).
  cbn [app].
  destruct (result (genes_de_entrada w args)) as [[genes|]|c|e];
    [|split_and!; simpl; (done || lia)..].
  rewrite etapas_consultas.
  destruct (validar_dos_consultas w genes (attr_str args "organism"))
    as (rest & -> & Hrest).
  destruct (result (validar_y_convertir_genes w genes
                      (attr_str args "organism"))) as [v| |] eqn:Hv.
  - destruct (etapas_validada w genes _ (attr_str args "output") v Hv)
      as (_ & -> & _).
    split_and!; simpl; (done || lia).
  - destruct (etapas_interrumpida w genes (attr_str args "organism")
                (attr_str args "output")) as (_ & -> & ->);
      [intros v; by rewrite Hv|].
    split_and!; simpl; (done || lia).
  - destruct (etapas_interrumpida w genes (attr_str args "organism")
                (attr_str args "output")) as (_ & -> & ->);
      [intros v; by rewrite Hv|].
    split_and!; simpl; (done || lia).
Qed.

Lemma orden_de_la_ejecucion_witness :
  written (trace (main mundo_ejemplo [("-g", ["COX4I2"; "ND1"])])) ≠ []
  ∧ analisis (trace (main mundo_ejemplo [("-g", ["COX4I2"; "ND1"])])) ≠ [].
Proof.
  assert (written (trace (main mundo_ejemplo [("-g", ["COX4I2"; "ND1"])]))
          ≠ []) as H by (vm_compute; discriminate).
  split; [exact H|].
  exact (proj1 (orden_de_la_ejecucion mundo_ejemplo
                  [("-g", ["COX4I2"; "ND1"])]) H).
Defined.

(** ** An empty path after [-i] *)

Section EmptyPath.
Import Argparse.

(** An attribute that the command line does not give keeps its value. *)
Lemma consume_conserva d cmd st args :
  given parser d cmd = false →
  consume parser cmd st = Parsed args →
  args !! d = ns st !! d.
Proof.
  revert st. induction cmd as [|[flag values] cmd IH]; intros st Hg H.
  - rewrite consume_nil in H.
    destruct (group_required parser && bool_decide (seen st = []));
      [done|].
    destruct (extras st); [done|]. by injection H as <-.
  - rewrite consume_cons in H. rewrite given_cons in Hg. cbn [fst] in Hg.
    apply orb_false_iff in Hg as [Hd Hg].
    destruct (bool_decide (flag ∈ ["-h"; "--help"])); [done|].
    destruct (find_action parser flag) as [a|]; [|by apply IH in H].
    apply bool_decide_eq_false in Hd.
    assert (dest a ≠ d) as Hne by (intros <-; by apply Hd).
    destruct (arity a), values as [|v rest]; try done;
      destruct (in_group parser a && _); try done;
      apply IH in H; try done; cbn [ns] in H;
      by rewrite lookup_insert_ne in H.
Qed.

Lemma defaults_input : defaults parser !! "input" = Some PNone.
Proof. reflexivity. Qed.

Lemma defaults_genes : defaults parser !! "genes" = Some PNone.
Proof. reflexivity. Qed.

(** On an accepted command line, an [input] that is a string leaves
    [genes] at [None]. *)
Lemma input_sin_genes cmd args s :
  parse_args parser cmd = Parsed args →
  attr args "input" = PStr s → attr args "genes" = PNone.
Proof.
  intros Hp Hi. unfold parse_args in Hp.
  assert (coherente {| ns := defaults parser; seen := [];
                       extras := false |}) as Hco.
  { split; [constructor|]. by intros [?%elem_of_nil _]. }
  destruct (consume_sound _ _ _ Hco Hp) as (Hx & _).
  unfold dado in Hx. cbn [seen] in Hx.
  rewrite !(bool_decide_false (_ ∈ [])) in Hx by apply not_elem_of_nil.
  cbn [orb] in Hx.
  destruct (given parser "input" cmd) eqn:Egi.
  - cbn [xorb] in Hx. apply negb_true_iff in Hx.
    pose proof (consume_conserva "genes" _ _ _ Hx Hp) as Hg.
    cbn [ns] in Hg. rewrite defaults_genes in Hg.
    unfold attr. by rewrite Hg.
  - pose proof (consume_conserva "input" _ _ _ Egi Hp) as Hin.
    cbn [ns] in Hin. rewrite defaults_input in Hin.
    unfold attr in Hi. by rewrite Hin in Hi.
Qed.
End EmptyPath.

(** X14. An accepted command line whose [-i] path is the empty string
    makes [main] take the list of [-g], which is [None]: the run prints the
    header of the validation and ends with a [TypeError], having read no
    file and sent no lookup. *)
Theorem ruta_vacia w argv args :
  Argparse.parse_args parser argv = Argparse.Parsed args →
  attr args "input" = PStr EmptyString →
  result (main w argv)
  = Uncaught (Exc "TypeError" "object of type 'NoneType' has no len()")
  ∧ trace (main w argv) = cabecera ++ trace encabezado_validacion
  ∧ consultas (trace (main w argv)) = [].
Proof.
  intros Hp Hi.
  pose proof (input_sin_genes argv args _ Hp Hi) as Hg.
  assert (genes_de_entrada w args = MkRun [] (Return None)) as Hgde.
  { unfold genes_de_entrada. by rewrite Hi, Hg. }
  rewrite (main_tras_parse w argv args Hp), Hgde. by cbn.
Qed.

Lemma ruta_vacia_witness :
  Argparse.parse_args parser [("-i", [EmptyString])]
  = Argparse.Parsed (<["input" := PStr EmptyString]>
                       (Argparse.defaults parser))
  ∧ result (main mundo_ejemplo [("-i", [EmptyString])])
    = Uncaught (Exc "TypeError" "object of type 'NoneType' has no len()").
Proof.
  split; [reflexivity|].
  exact (proj1 (ruta_vacia mundo_ejemplo [("-i", [EmptyString])]
                  (<["input" := PStr EmptyString]>
                     (Argparse.defaults parser))
                  eq_refl eq_refl)).
Defined.
